(** * svg2geojson: a shallow embedding of [lib/svg2geojson.js]

    The converter reads a parsed SVG element tree (as produced by xml2js with
    [explicitChildren], [preserveChildrenOrder] and [xmlns]), derives an affine
    calibration from three Prognoz [GeoItem]s, walks the tree accumulating
    [matrix(...)] transforms, and emits GeoJSON geometries.

    Conventions of the embedding:
    - a JavaScript number is [num], a binary64 floating-point number: the
      primitive [float] of the Standard Library, with its rounding, its
      infinities, its signed zeros and its [NaN];
    - a JavaScript string is a [string] whose characters are code units
      below 256;
    - exceptions and [process.exit] are the [Err] results of [outcome];
    - the [mat23] objects that [combineTransform] shares and overwrites live
      in an explicit store ([heap]), addressed by [loc];
    - [console.warn]/[console.error] output is not recorded. *)

From Stdlib Require Import Ascii String ZArith Uint63 Floats.
From stdpp Require Import gmap strings list numbers pretty.

Set Default Proof Using "Type".

(** ** Numbers *)

Definition num : Type := float.

Definition NaN : num := nan.

(** Equality of numbers as values: [NaN] is equal to itself, and [0] is not
    [-0]. *)
#[global] Instance num_eq_dec : EqDecision num.
Proof.
  intros x y. destruct (PrimFloat.Leibniz.eqb x y) eqn:E; [left|right].
  - by apply FloatAxioms.Leibniz.eqb_spec.
  - intros Hxy. apply FloatAxioms.Leibniz.eqb_spec in Hxy. congruence.
Defined.

#[global] Instance num_inhabited : Inhabited num := populate NaN.

Definition nadd (a b : num) : num := (a + b)%float.
Definition nsub (a b : num) : num := (a - b)%float.
Definition nmul (a b : num) : num := (a * b)%float.
Definition ndiv (a b : num) : num := (a / b)%float.
Definition nneg (a : num) : num := (- a)%float.

(** [a < b] and [a == b]; every comparison with [NaN] is false, and
    [0 == -0]. *)
Definition nlt (a b : num) : bool := (a <? b)%float.
Definition nequal (a b : num) : bool := (a =? b)%float.

(** [isNaN(a)]. *)
Definition is_NaN (a : num) : bool := is_nan a.

(** The number of an integer below 2^63 in absolute value: exact up to 2^53,
    rounded to the nearest number beyond. *)
Definition zn (z : Z) : num :=
  if (z <? 0)%Z then (- of_uint63 (of_Z (- z)))%float else of_uint63 (of_Z z).

(** ** Points and rings *)

(** A coordinate pair [[x, y]]. *)
Definition point : Type := num * num.

(** ** [windingIsCorrect] *)

(** The summand of iteration [i]:
    [(pts[i][0] - p0[0]) * (pts[i][1] + p0[1])] with
    [p0 = pts[(i || pts.length) - 1]]. *)
Definition winding_term (pts : list point) (i : nat) : num :=
  let p0 := pts !!! ((if decide (i = 0%nat) then length pts else i) - 1)%nat in
  let p := pts !!! i in
  nmul (nsub p.1 p0.1) (nadd p.2 p0.2).

Definition winding_sum (pts : list point) : num :=
  fold_left (fun sum i => nadd sum (winding_term pts i))
            (seq 0 (length pts)) (zn 0).

(** [shouldBeClockwise] receives the ring index; it is truthy when the index
    is not zero. *)
Definition windingIsCorrect (pts : list point) (shouldBeClockwise : nat) : bool :=
  let sum := winding_sum pts in
  if decide (shouldBeClockwise = 0%nat) then nlt (zn 0) sum else nlt sum (zn 0).

(** The loop of [addPathData], lines 250-252: [i] runs from
    [coordinates.length - 1] down to [0]. *)
Definition checkWindingStep (rings : list (list point)) (i : nat) : list (list point) :=
  match rings !! i with
  | Some ring =>
      if windingIsCorrect ring i then rings else <[i := reverse ring]> rings
  | None => rings
  end.

Definition checkWindingLoop (rings : list (list point)) : list (list point) :=
  fold_left checkWindingStep (reverse (seq 0 (length rings))) rings.

(** What one pass does to the ring at index [i]. *)
Definition normalizeRing (i : nat) (ring : list point) : list point :=
  if windingIsCorrect ring i then ring else reverse ring.

(** The accumulation [Σ (x_i − x_{i−1})·(y_i + y_{i−1})] in the words of the
    specification: every point is paired with the one before it, the last
    point standing before the first, and the products are added to 0 in the
    order of the points. *)
Definition spec_shoelace (pts : list point) : num :=
  match pts with
  | [] => zn 0
  | p0 :: _ =>
      fold_left nadd
                (zip_with (fun p' p => nmul (nsub p.1 p'.1) (nadd p.2 p'.2))
                          (default p0 (last pts) :: pts) pts)
                (zn 0)
  end.

(** The orientation rule in the words of the specification: a negative sum
    is clockwise; ring 0 must be clockwise, every other ring
    counter-clockwise. *)
Definition spec_isClockwise (pts : list point) : bool := nlt (spec_shoelace pts) (zn 0).
Definition spec_isCounterClockwise (pts : list point) : bool := nlt (zn 0) (spec_shoelace pts).
Definition spec_windingMatches (pts : list point) (i : nat) : bool :=
  if decide (i = 0%nat) then spec_isClockwise pts else spec_isCounterClockwise pts.

(** ** Results: exceptions and [process.exit] *)

Inductive error : Type :=
  | ProcessExit (code : Z)      (* process.exit(code) *)
  | TypeError                   (* a property read or call on undefined, or a missing method *)
  | Thrown (msg : string).      (* throw "..." *)

Inductive outcome (A : Type) : Type :=
  | Ok (a : A)
  | Err (e : error).
Arguments Ok {A} a.
Arguments Err {A} e.

#[global] Instance error_eq_dec : EqDecision error.
Proof. solve_decision. Defined.
#[global] Instance outcome_eq_dec `{EqDecision A} : EqDecision (outcome A).
Proof. solve_decision. Defined.

#[global] Instance outcome_ret : MRet outcome := @Ok.
#[global] Instance outcome_bind : MBind outcome := fun A B f m =>
  match m with
  | Ok a => f a
  | Err e => Err e
  end.

#[global] Instance outcome_fmap : FMap outcome := fun A B f m =>
  match m with
  | Ok a => Ok (f a)
  | Err e => Err e
  end.

(** [arr.forEach(f)] where [f] may throw; [s] is the state the callback
    works on. *)
Definition forEachM {A S : Type} (f : A -> S -> outcome S) : list A -> S -> outcome S :=
  fix go (l : list A) (s : S) : outcome S :=
    match l with
    | [] => Ok s
    | x :: r => s' ← f x s; go r s'
    end.

(** ** Strings *)

Definition code (c : ascii) : nat := nat_of_ascii c.

(** The class [[\s,]]: white space (TAB, LF, VT, FF, CR, SP, NBSP) or a comma. *)
Definition is_sep (c : ascii) : bool :=
  bool_decide (code c ∈ [9; 10; 11; 12; 13; 32; 160; 44]%nat).

(** [.] does not match LF or CR. *)
Definition is_line_terminator (c : ascii) : bool :=
  bool_decide (code c ∈ [10; 13]%nat).

Definition snoc_char (s : string) (c : ascii) : string := s +:+ String c "".

(** [s.split(/[\s,]+/)]: the pieces between maximal runs of separators; a
    run at either end leaves an empty piece there. *)
Fixpoint split_go (s cur : string) (insep : bool) : list string :=
  match s with
  | EmptyString => [cur]
  | String c r =>
      if is_sep c then
        if insep then split_go r cur true else cur :: split_go r "" true
      else split_go r (snoc_char cur c) false
  end.

Definition split_sep (s : string) : list string := split_go s "" false.

Fixpoint strip_prefix (p s : string) : option string :=
  match p, s with
  | EmptyString, _ => Some s
  | String a p', String b s' => if decide (a = b) then strip_prefix p' s' else None
  | String _ _, EmptyString => None
  end.

(** The lazy group [(.+?)] once its first character is taken: extend up to
    the first [")"]. *)
Fixpoint lazy_until_paren (s acc : string) : option string :=
  match s with
  | EmptyString => None
  | String c r =>
      if decide (c = ")"%char) then Some acc
      else if is_line_terminator c then None
      else lazy_until_paren r (snoc_char acc c)
  end.

(** One attempt of [/matrix\((.+?)\)/] at the start of [s]; the result is
    group 1. *)
Definition matrix_at (s : string) : option string :=
  match strip_prefix "matrix(" s with
  | Some (String c r) =>
      if is_line_terminator c then None else lazy_until_paren r (String c "")
  | _ => None
  end.

(** [/matrix\((.+?)\)/.exec(s)]: the leftmost position where the attempt
    succeeds. *)
Fixpoint matrix_exec (s : string) : option string :=
  match matrix_at s with
  | Some g => Some g
  | None => match s with
            | EmptyString => None
            | String _ r => matrix_exec r
            end
  end.

(** [s.replace(/_1_$/, '')]. *)
Fixpoint strip_1_suffix (s : string) : string :=
  match s with
  | EmptyString => ""
  | String c r => if decide (s = "_1_") then "" else String c (strip_1_suffix r)
  end.

(** [s.replace(/_/g, ' ')]. *)
Fixpoint underscores_to_spaces (s : string) : string :=
  match s with
  | EmptyString => ""
  | String c r => String (if decide (c = "_"%char) then " "%char else c) (underscores_to_spaces r)
  end.

(** ** The parsed document *)

(** An xml2js node: [#name], [$ns] (uri, local), [$] (attribute name to
    its [value]) and [$$] (children in document order).  [$] is absent on
    an element without attributes and [$$] on one without children. *)
#[warnings="-register-all"] Inductive element : Type :=
  Element (name : string) (ns : option (string * string))
          (attributes : option (gmap string string))
          (children : option (list element)).

Definition el_name (el : element) : string := let 'Element n _ _ _ := el in n.
Definition el_ns (el : element) : option (string * string) := let 'Element _ n _ _ := el in n.
Definition el_attrs (el : element) : option (gmap string string) := let 'Element _ _ a _ := el in a.
Definition el_children (el : element) : option (list element) := let 'Element _ _ _ c := el in c.

Record document := { svg : element }.

Record options := { layers : bool; debug : bool }.

(** A value read by [attrs]: a number when the attribute text coerces to
    one, else the text itself. *)
Inductive attrval : Type :=
  | ANum (n : num)
  | AStr (s : string).

#[global] Instance attrval_eq_dec : EqDecision attrval.
Proof. solve_decision. Defined.

(** A polyline returned by [pathDataToPolys]: its points and its [closed]
    property. *)
Record poly := { poly_points : list point; closed : bool }.

(** ** What the converter takes from its environment

    The language's coercions and the path flattener (package
    svg-path-to-polygons) are not part of the converter; results hold for
    every implementation of them. *)
Class Runtime := {
  (** [s * 1]: ToNumber of a string *)
  toNumber : string -> num;
  parseFloat : string -> num;
  (** ToString of a number *)
  numToString : num -> string;
  (** [pathDataToPolys(pathData, { tolerance })] *)
  pathDataToPolys : attrval -> num -> outcome (list poly);
  (** [d.match(/^.+?\d.*?[\s,-].*?\d.*?(?=[\s,a-z-]|$)/i)], element 0 *)
  pathStartMatch : string -> option string;
  (** [pkg.version] *)
  pkg_version : string;
}.

(** ** Affine maps *)

(** vmath's [mat23]: the map [(x, y) -> (m00 x + m02 y + m04, m01 x + m03 y + m05)]. *)
Record mat23 := Mat23 { m00 : num; m01 : num; m02 : num; m03 : num; m04 : num; m05 : num }.

#[global] Instance mat23_eq_dec : EqDecision mat23.
Proof. solve_decision. Defined.
#[global] Instance mat23_inhabited : Inhabited mat23 := populate (Mat23 NaN NaN NaN NaN NaN NaN).

(** Modelled from the spec: vmath is a dependency whose code is not part of
    the sources.  [vec2.transformMat23(out, a, m)] is the specification's
    [apply(point)], the standard affine evaluation, on vmath's coefficient
    layout. *)
Definition transformMat23 (m : mat23) (a : point) : point :=
  (nadd (nadd (nmul (m00 m) a.1) (nmul (m02 m) a.2)) (m04 m),
   nadd (nadd (nmul (m01 m) a.1) (nmul (m03 m) a.2)) (m05 m)).

(** Modelled from the spec: the product written by [mat23.multiply(out, a, b)]
    is the specification's [compose(outer, inner)] with [a] outer and [b]
    inner, the matrix product [a * b]. *)
Definition mat23_mul (a b : mat23) : mat23 :=
  {| m00 := nadd (nmul (m00 a) (m00 b)) (nmul (m02 a) (m01 b));
     m01 := nadd (nmul (m01 a) (m00 b)) (nmul (m03 a) (m01 b));
     m02 := nadd (nmul (m00 a) (m02 b)) (nmul (m02 a) (m03 b));
     m03 := nadd (nmul (m01 a) (m02 b)) (nmul (m03 a) (m03 b));
     m04 := nadd (nadd (nmul (m00 a) (m04 b)) (nmul (m02 a) (m05 b))) (m04 a);
     m05 := nadd (nadd (nmul (m01 a) (m04 b)) (nmul (m03 a) (m05 b))) (m05 a) |}.

(** The store of [mat23] objects.  A running transform is [undefined]
    ([None]) or a reference into the store. *)
Abbreviation loc := nat (only parsing).
Abbreviation heap := (list mat23) (only parsing).

(** [mat23.new(...)]: a fresh object. *)
Definition mat23_new (m : mat23) (h : heap) : loc * heap := (length h, h ++ [m]).

(** [mat23.multiply(out, a, b)]: the first argument is the object written
    (as in [vec2.transformMat23(pt, pt, xform)], whose result [coords]
    reads back from [pt]). *)
Definition mat23_multiply (out a b : loc) (h : heap) : heap :=
  <[out := mat23_mul (h !!! a) (h !!! b)]> h.

(** ** Attribute access *)

(** Truthiness of a value read by [attrs]. *)
Definition truthy (v : attrval) : bool :=
  match v with
  | ANum n => negb (is_NaN n) && negb (nequal n (zn 0))
  | AStr s => bool_decide (s <> "")
  end.

(** ToString in a template literal or [join]. *)
Definition to_str `{Runtime} (v : attrval) : string :=
  match v with
  | ANum n => numToString n
  | AStr s => s
  end.

(** ToNumber, as applied by [*] and [-]. *)
Definition to_num `{Runtime} (v : attrval) : num :=
  match v with
  | ANum n => n
  | AStr s => toNumber s
  end.

(** [a + b]: concatenation as soon as one side is a string. *)
Definition js_plus `{Runtime} (a b : attrval) : attrval :=
  match a, b with
  | ANum x, ANum y => ANum (nadd x y)
  | _, _ => AStr (to_str a +:+ to_str b)
  end.

(** One entry of the object built by [attrs]:
    [el.$[n] ? (isNaN(v * 1) ? v : v * 1) : 0]. *)
Definition attr_value `{Runtime} (a : gmap string string) (n : string) : attrval :=
  match a !! n with
  | Some v => if is_NaN (toNumber v) then AStr v else ANum (toNumber v)
  | None => ANum (zn 0)
  end.

(** [attrs(el, ...names)]; every call names at least one attribute, so an
    element without [$] throws at the first name. *)
Definition attrs `{Runtime} (el : element) : outcome (string -> attrval) :=
  match el_attrs el with
  | Some a => Ok (attr_value a)
  | None => Err TypeError
  end.

(** [n[k] * 1]; a missing entry is [undefined], hence [NaN]. *)
Definition entry_num `{Runtime} (n : list string) (k : nat) : num :=
  match n !! k with
  | Some s => toNumber s
  | None => NaN
  end.

(** ** [combineTransform] *)

(** [mat23.new(n[0] * 1, ..., n[5] * 1)] for [n = args[1].split(/[\s,]+/)]. *)
Definition localMatrix `{Runtime} (args1 : string) : mat23 :=
  let n := split_sep args1 in
  Mat23 (entry_num n 0) (entry_num n 1) (entry_num n 2)
        (entry_num n 3) (entry_num n 4) (entry_num n 5).

Definition combineTransform `{Runtime} (el : element) (xform : option loc) (h : heap)
  : option loc * heap :=
  match el_attrs el with
  | Some a =>
      match a !! "transform" with
      | Some value =>
          match matrix_exec value with
          | Some args1 =>
              let '(mat, h) := mat23_new (localMatrix args1) h in
              match xform with
              | Some x => (Some x, mat23_multiply x x mat h)
              | None => (Some mat, h)
              end
          | None => (xform, h)
          end
      | None => (xform, h)
      end
  | None => (xform, h)
  end.

(** ** [coords] *)

Definition coords (cs : list point) (xform : option loc) (h : heap) : list point :=
  match xform with
  | Some x => transformMat23 (h !!! x) <$> cs
  | None => cs
  end.

(** ** Geometries *)

Inductive geotype : Type := Point | LineString | Polygon.

(** The [coordinates] array: a pair, a list of pairs or a list of rings.
    The pairs of a rect or line are built from attribute values; when one
    of these is still a string the array is [CAttrLine] or [CAttrRings]. *)
Inductive coordshape : Type :=
  | CPoint (p : point)
  | CLine (pts : list point)
  | CRings (rings : list (list point))
  | CAttrLine (pts : list (attrval * attrval))
  | CAttrRings (rings : list (list (attrval * attrval))).

(** The array object held in [geo.coordinates], with the [debugId]
    property that [addDebugId] sets on it; [None] is [undefined]. *)
Record coordarray := { shape : coordshape; debugId : option string }.

Record Geometry := { type : geotype; coordinates : coordarray }.

#[global] Instance geotype_eq_dec : EqDecision geotype.
Proof. solve_decision. Defined.
#[global] Instance coordshape_eq_dec : EqDecision coordshape.
Proof. solve_decision. Defined.
#[global] Instance coordarray_eq_dec : EqDecision coordarray.
Proof. solve_decision. Defined.
#[global] Instance geometry_eq_dec : EqDecision Geometry.
Proof. solve_decision. Defined.

(** A fresh array literal or [map] result has no [debugId]. *)
Definition new_array (s : coordshape) : coordarray := {| shape := s; debugId := None |}.

(** [addDebugId(geo, el, fallback)]. *)
Definition debugLabel (el : element) (fallback : string) : string :=
  match el_attrs el with
  | Some a => match a !! "id" with
              | Some v => "#" +:+ v
              | None => fallback
              end
  | None => fallback
  end.

Definition addDebugId (geo : Geometry) (el : element) (fallback : string) : Geometry :=
  {| type := type geo;
     coordinates := {| shape := shape (coordinates geo);
                       debugId := Some (debugLabel el fallback) |} |}.

(** An array of numbers in a template literal: its entries joined by [","]. *)
Definition point_str `{Runtime} (p : option point) : string :=
  match p with
  | Some (x, y) => numToString x +:+ "," +:+ numToString y
  | None => "undefined"
  end.

(** ** Primitives *)

Section Primitives.
Context `{Runtime}.

Definition svgTolerance : num := zn 1.

(** The geometry built by [addPathData]; [polys[0].closed] throws when the
    flattener returned no polyline. *)
Definition addPathData (layer : list Geometry) (xform : option loc) (pathData : attrval)
    (checkWinding : bool) (h : heap) : outcome (Geometry * list Geometry) :=
  polys ← pathDataToPolys pathData svgTolerance;
  isPolygon ← match polys with
              | [] => Err TypeError
              | p0 :: _ => Ok (bool_decide (1 < length polys)%nat || closed p0)
              end;
  let cs := (fun poly => coords (poly_points poly) xform h) <$> polys in
  let geo :=
    if isPolygon : bool then
      {| type := Polygon;
         coordinates := new_array (CRings (if checkWinding then checkWindingLoop cs else cs)) |}
    else
      let line := cs !!! 0%nat in
      if decide (length line = 1%nat) then
        {| type := Point; coordinates := new_array (CPoint (line !!! 0%nat)) |}
      else
        {| type := LineString; coordinates := new_array (CLine line) |} in
  Ok (geo, layer ++ [geo]).

(** [addPathData] has pushed [geo] before [addDebugId] labels it: the label
    lands on the entry just pushed, at index [length layer]. *)
Definition addPathToLayer (el : element) (layer : list Geometry) (xform : option loc)
    (h : heap) : outcome (list Geometry) :=
  c ← attrs el;
  let d := c "d" in
  if truthy d then
    '(geo, layer') ← addPathData layer xform d true h;
    pathStart ← match d with
                | AStr s => Ok (pathStartMatch s)
                | ANum _ => Err TypeError
                end;
    Ok (<[length layer := addDebugId geo el ("path @ " +:+ default "null" pathStart)]> layer')
  else Ok layer.

(** [coords] on the pairs of a rect or line, which still hold attribute
    values.  With a transform every entry is coerced to a number by the
    multiplication.  Without one the entries stay as they are: numbers when
    all of them are ([inl]), else the attribute values themselves ([inr]). *)
Definition numeric_pair (a : attrval * attrval) : option point :=
  match a with
  | (ANum x, ANum y) => Some (x, y)
  | _ => None
  end.

Definition coords_attr (cs : list (attrval * attrval)) (xform : option loc) (h : heap)
  : list point + list (attrval * attrval) :=
  match xform with
  | Some x => inl ((fun a => transformMat23 (h !!! x) (to_num a.1, to_num a.2)) <$> cs)
  | None => match mapM numeric_pair cs with
            | Some pts => inl pts
            | None => inr cs
            end
  end.

Definition addRectToLayer (el : element) (layer : list Geometry) (xform : option loc)
    (h : heap) : outcome (list Geometry) :=
  c ← attrs el;
  let x := c "x" in let y := c "y" in
  let width := c "width" in let height := c "height" in
  let ring := coords_attr [(x, y); (x, js_plus y height); (js_plus x width, js_plus y height);
                           (js_plus x width, y); (x, y)] xform h in
  let geo := {| type := Polygon;
                coordinates := new_array match ring with
                                         | inl ring => CRings [ring]
                                         | inr ring => CAttrRings [ring]
                                         end |} in
  Ok (layer ++ [addDebugId geo el ("rect @ " +:+ to_str x +:+ "," +:+ to_str y)]).

Definition addLineToLayer (el : element) (layer : list Geometry) (xform : option loc)
    (h : heap) : outcome (list Geometry) :=
  c ← attrs el;
  let x1 := c "x1" in let y1 := c "y1" in
  let x2 := c "x2" in let y2 := c "y2" in
  let line := coords_attr [(x1, y1); (x2, y2)] xform h in
  let geo := {| type := LineString;
                coordinates := new_array match line with
                                         | inl line => CLine line
                                         | inr line => CAttrLine line
                                         end |} in
  Ok (layer ++ [addDebugId geo el ("line @ " +:+ to_str x1 +:+ "," +:+ to_str y1)]).

#[warnings="-inexact-float"] Definition bezierCircle : num := 0.55191502449%float.

Definition addCircleToLayer (el : element) (layer : list Geometry) (xform : option loc)
    (h : heap) : outcome (list Geometry) :=
  c ← attrs el;
  let cx := c "cx" in let cy := c "cy" in let r := c "r" in
  if truthy r then
    let s := nmul bezierCircle (to_num r) in
    let m := nsub (to_num r) s in
    let nr := ANum (nneg (to_num r)) in
    let pathData :=
      String.concat " "
        (["M"; to_str cx; to_str (js_plus cy r);
          "c"; numToString s; numToString (zn 0); to_str r; numToString (nneg m);
               to_str r; to_str nr;
          "s"; numToString (nneg m); to_str nr; to_str nr; to_str nr;
          "s"; to_str nr; numToString m; to_str nr; to_str r;
          "s"; numToString m; to_str r; to_str r; to_str r; "z"]) in
    '(geo, layer') ← addPathData layer xform (AStr pathData) false h;
    Ok (<[length layer :=
            addDebugId geo el ("circle @ " +:+ to_str cx +:+ "," +:+ to_str cy)]> layer')
  else Ok layer.

Definition addEllipseToLayer (el : element) (layer : list Geometry) (xform : option loc)
    (h : heap) : outcome (list Geometry) :=
  Err (ProcessExit 2).

(** The loop [for (i = 0; i < nums.length; i += 2)] of the polygon and
    polyline readers. *)
Fixpoint parse_pairs (nums : list string) : list point :=
  match nums with
  | a :: b :: rest =>
      (if bool_decide (a <> "") && bool_decide (b <> "")
       then [(toNumber a, toNumber b)] else [])
      ++ parse_pairs rest
  | _ => []
  end.

(** [pts.push(pts[0].concat())] throws when [pts] is empty. *)
Definition push_first_copy (pts : list point) : outcome (list point) :=
  match pts with
  | p0 :: _ => Ok (pts ++ [p0])
  | [] => Err TypeError
  end.

Definition addPolygonToLayer (el : element) (layer : list Geometry) (xform : option loc)
    (h : heap) : outcome (list Geometry) :=
  c ← attrs el;
  let points := c "points" in
  if negb (truthy points) then Ok layer
  else
    nums ← match points with
           | AStr s => Ok (split_sep s)
           | ANum _ => Err TypeError
           end;
    pts ← push_first_copy (parse_pairs nums);
    let ring := coords pts xform h in
    let ring := if windingIsCorrect ring 0 then ring else reverse ring in
    let geo := {| type := Polygon; coordinates := new_array (CRings [ring]) |} in
    Ok (layer ++ [addDebugId geo el
                    ("polygon @ " +:+ point_str (ring !! 0%nat) +:+ "," +:+ point_str (ring !! 1%nat))]).

Definition addPolylineToLayer (el : element) (layer : list Geometry) (xform : option loc)
    (h : heap) : outcome (list Geometry) :=
  c ← attrs el;
  let points := c "points" in
  if negb (truthy points) then Ok layer
  else
    nums ← match points with
           | AStr s => Ok (split_sep s)
           | ANum _ => Err TypeError
           end;
    pts ← push_first_copy (parse_pairs nums);
    let line := coords pts xform h in
    let geo := {| type := LineString; coordinates := new_array (CLine line) |} in
    Ok (layer ++ [addDebugId geo el
                    ("polyline @ " +:+ point_str (line !! 0%nat) +:+ "," +:+ point_str (line !! 1%nat))]).

(** ** The tree walk *)

(** [addElementToLayer]; the case ["g"] is [addGroupToLayer], written in
    place so that the recursion is structural.  The children of a group all
    receive the same reference [xform]. *)
Fixpoint addElementToLayer (el : element) (layer : list Geometry) (xform : option loc)
    (h : heap) {struct el} : outcome (list Geometry * heap) :=
  match el with
  | Element name _ _ children =>
      let '(xform, h) := combineTransform el xform h in
      let leaf (r : outcome (list Geometry)) := layer' ← r; Ok (layer', h) in
      match name with
      | "g" =>
          match children with
          | Some es =>
              forEachM (fun e st => addElementToLayer e (fst st) xform (snd st)) es (layer, h)
          | None => Err TypeError
          end
      | "path" => leaf (addPathToLayer el layer xform h)
      | "rect" => leaf (addRectToLayer el layer xform h)
      | "line" => leaf (addLineToLayer el layer xform h)
      | "circle" => leaf (addCircleToLayer el layer xform h)
      | "ellipse" => leaf (addEllipseToLayer el layer xform h)
      | "polygon" => leaf (addPolygonToLayer el layer xform h)
      | "polyline" => leaf (addPolylineToLayer el layer xform h)
      | "style" | "MetaInfo" | "defs" | "use" => Ok (layer, h)
      | _ => Ok (layer, h)
      end
  end.

Definition addGroupToLayer (el : element) (layer : list Geometry) (xform : option loc)
    (h : heap) : outcome (list Geometry * heap) :=
  match el_children el with
  | Some es => forEachM (fun e st => addElementToLayer e (fst st) xform (snd st)) es (layer, h)
  | None => Err TypeError
  end.

End Primitives.

(** ** Calibration *)

(** The matrix of transformation-matrix-js:
    [(x, y) -> (x a + y c + e, x b + y d + f)]. *)
Record Matrix := MkMatrix { mA : num; mB : num; mC : num; mD : num; mE : num; mF : num }.

#[global] Instance Matrix_eq_dec : EqDecision Matrix.
Proof. solve_decision. Defined.

(** Modelled from the spec: transformation-matrix-js is a dependency whose
    code is not part of the sources.  [applyToPoint] is the standard affine
    evaluation. *)
Definition applyToPoint (m : Matrix) (x y : num) : point :=
  (nadd (nadd (nmul x (mA m)) (nmul y (mC m))) (mE m),
   nadd (nadd (nmul x (mB m)) (nmul y (mD m))) (mF m)).

(** Twice the signed area of the triangle [x0 y0 x1 y1 x2 y2]: the
    determinant of its two edge vectors at the first vertex. *)
Definition triangleDet (t : list num) : num :=
  let ux := nsub (t !!! 2%nat) (t !!! 0%nat) in
  let uy := nsub (t !!! 3%nat) (t !!! 1%nat) in
  let vx := nsub (t !!! 4%nat) (t !!! 0%nat) in
  let vy := nsub (t !!! 5%nat) (t !!! 1%nat) in
  nsub (nmul ux vy) (nmul vx uy).

(** The determinant compares equal to zero. *)
Definition collinear (t : list num) : Prop := nequal (triangleDet t) (zn 0) = true.

#[global] Instance collinear_dec (t : list num) : Decision (collinear t).
Proof. unfold collinear. apply _. Defined.

(** The six entries of a triangle are finite numbers: neither [NaN] (what
    [parseFloat] returns on a text that is not a number) nor an infinity. *)
Definition finiteTriangle (t : list num) : bool :=
  forallb (fun k => is_finite (t !!! k)) (seq 0 6).

(** Modelled from the spec: [Matrix.fromTriangles(t1, t2)] (section 4.1).
    The linear part carries the two edge vectors of the source triangle
    onto those of the target triangle; the translation carries the first
    source vertex to its target.  It fails with a degenerate-input error
    when the source points are collinear, and malformed correspondences
    (section 7: an entry that is not a finite number) are fatal as well. *)
Definition fromTriangles (t1 t2 : list num) : outcome Matrix :=
  let det := triangleDet t1 in
  if negb (finiteTriangle t1 && finiteTriangle t2) then Err (Thrown "malformed input")
  else if decide (collinear t1) then Err (Thrown "degenerate input")
  else
    let x0 := t1 !!! 0%nat in let y0 := t1 !!! 1%nat in
    let ux := nsub (t1 !!! 2%nat) x0 in let uy := nsub (t1 !!! 3%nat) y0 in
    let vx := nsub (t1 !!! 4%nat) x0 in let vy := nsub (t1 !!! 5%nat) y0 in
    let X0 := t2 !!! 0%nat in let Y0 := t2 !!! 1%nat in
    let Ux := nsub (t2 !!! 2%nat) X0 in let Uy := nsub (t2 !!! 3%nat) Y0 in
    let Vx := nsub (t2 !!! 4%nat) X0 in let Vy := nsub (t2 !!! 5%nat) Y0 in
    let a := ndiv (nsub (nmul Ux vy) (nmul Vx uy)) det in
    let c := ndiv (nsub (nmul Vx ux) (nmul Ux vx)) det in
    let b := ndiv (nsub (nmul Uy vy) (nmul Vy uy)) det in
    let d := ndiv (nsub (nmul Vy ux) (nmul Uy vx)) det in
    Ok {| mA := a; mB := b; mC := c; mD := d;
          mE := nsub X0 (nadd (nmul x0 a) (nmul y0 c));
          mF := nsub Y0 (nadd (nmul x0 b) (nmul y0 d)) |}.

Section Convert.
Context `{Runtime}.

(** [vertices[k].$.NAME.value]. *)
Definition vertexAttr (v : element) (n : string) : outcome string :=
  match el_attrs v with
  | Some a => match a !! n with
              | Some s => Ok s
              | None => Err TypeError
              end
  | None => Err TypeError
  end.

(** The six strings of one of the two array literals of
    [getConvertMatrix], read from [vertices[0..2]]. *)
Definition triangleStrings (vertices : list element) (nx ny : string) : outcome (list string) :=
  match vertices with
  | v0 :: v1 :: v2 :: _ =>
      x0 ← vertexAttr v0 nx; y0 ← vertexAttr v0 ny;
      x1 ← vertexAttr v1 nx; y1 ← vertexAttr v1 ny;
      x2 ← vertexAttr v2 nx; y2 ← vertexAttr v2 ny;
      Ok [x0; y0; x1; y1; x2; y2]
  | _ => Err TypeError
  end.

Definition getConvertMatrix (vertices : list element) : outcome Matrix :=
  originalXYs ← triangleStrings vertices "X" "Y";
  targetLatLongs ← triangleStrings vertices "Longitude" "Latitude";
  let originalTriangle := parseFloat <$> originalXYs in
  let targetTriangle := parseFloat <$> targetLatLongs in
  fromTriangles originalTriangle targetTriangle.

Definition convertCoordinate (p : point) (m : Matrix) : point :=
  applyToPoint m p.1 p.2.

(** A pair that still holds attribute values: [typeof coords[0] === 'number']
    sends it to [convertCoordinate], where [applyToPoint] coerces the second
    entry; with a string first the recursion reaches [coords.map] on a
    string and throws. *)
Definition convertAttrPair (a : attrval * attrval) (m : Matrix) : outcome point :=
  match a.1 with
  | ANum x => Ok (applyToPoint m x (to_num a.2))
  | AStr _ => Err TypeError
  end.

(** [convertCoordinates]: a fresh array at every level, so the result has
    no [debugId]. *)
Definition convertCoordinates (cs : coordarray) (m : Matrix) : outcome coordarray :=
  new_array <$>
    match shape cs with
    | CPoint p => Ok (CPoint (convertCoordinate p m))
    | CLine pts => Ok (CLine ((fun p => convertCoordinate p m) <$> pts))
    | CRings rings =>
        Ok (CRings ((fun ring : list point => (fun p => convertCoordinate p m) <$> ring)
                      <$> rings))
    | CAttrLine pts => CLine <$> mapM (fun a => convertAttrPair a m) pts
    | CAttrRings rings => CRings <$> mapM (mapM (fun a => convertAttrPair a m)) rings
    end.

(** ** The output *)

(** [properties]: [null] is [None]; otherwise the object [{ svgID }], whose
    value may be [undefined] ([None]). *)
Record properties_t := { svgID : option string }.
Record Feature := { properties : option properties_t; geometry : Geometry }.
Record FeatureCollection := { creator : string; features : list Feature }.

Inductive output : Type :=
  | Layers (ls : list (string * FeatureCollection))
  | Single (geo : FeatureCollection).

(** The callback of [layerByName[name].map] (lines 53-61): [data.coordinates]
    is replaced first, then [debugId] is read from the new array. *)
Definition makeFeature (opts : options) (m : Matrix) (data : Geometry) : outcome Feature :=
  cs ← convertCoordinates (coordinates data) m;
  let data := {| type := type data; coordinates := cs |} in
  Ok {| properties := if debug opts then Some {| svgID := debugId (coordinates data) |} else None;
        geometry := data |}.

(** [layerByName]: an object used as a map from names to arrays, listed in
    insertion order (names are taken not to be array indices or members of
    [Object.prototype]). *)
Definition layerMap : Type := list (string * list Geometry).

Definition layerGet (name : string) (m : layerMap) : option (list Geometry) :=
  snd <$> List.find (fun kv => bool_decide (fst kv = name)) m.

Definition layerSet (name : string) (layer : list Geometry) (m : layerMap) : layerMap :=
  (fun kv => if decide (fst kv = name) then (name, layer) else kv) <$> m.

(** [if (!layerByName[name]) layerByName[name] = []]. *)
Definition layerEnsure (name : string) (m : layerMap) : layerMap :=
  match layerGet name m with
  | Some _ => m
  | None => m ++ [(name, [])]
  end.

(** The callback of [svg.$$.forEach((el, i) => ...)] (lines 29-42). *)
Definition topLevel (opts : options) (iel : nat * element) (st : layerMap * heap)
  : outcome (layerMap * heap) :=
  let '(i, el) := iel in
  let '(byName, h) := st in
  if layers opts && bool_decide (el_name el = "g") then
    a ← match el_attrs el with Some a => Ok a | None => Err TypeError end;
    let name := match a !! "id" with
                | Some v => underscores_to_spaces (strip_1_suffix v)
                | None => "Layer " +:+ numToString (zn (Z.of_nat i))
                end in
    let byName := layerEnsure name byName in
    let '(xform, h) := combineTransform el None h in
    '(layer, h) ← addGroupToLayer el (default [] (layerGet name byName)) xform h;
    Ok (layerSet name layer byName, h)
  else
    let byName := layerEnsure "" byName in
    '(layer, h) ← addElementToLayer el (default [] (layerGet "" byName)) None h;
    Ok (layerSet "" layer byName, h).

Definition prognoz : string := "http://www.prognoz.ru".

(** [svg.$$.find(e => e['$ns'] && e['$ns'].uri == ... && e['$ns'].local == 'MetaInfo')]. *)
Definition isMetaInfo (e : element) : bool :=
  match el_ns e with
  | Some (uri, local) => bool_decide (uri = prognoz) && bool_decide (local = "MetaInfo")
  | None => false
  end.

(** [e['$ns'].local == name], which throws without [$ns]. *)
Definition hasLocal (name : string) (e : element) : outcome bool :=
  match el_ns e with
  | Some (_, local) => Ok (bool_decide (local = name))
  | None => Err TypeError
  end.

(** [arr.find(p)] and [arr.filter(p)] for a predicate that may throw. *)
Fixpoint findM (p : element -> outcome bool) (l : list element) : outcome (option element) :=
  match l with
  | [] => Ok None
  | e :: r => b ← p e; if b : bool then Ok (Some e) else findM p r
  end.

Fixpoint filterM (p : element -> outcome bool) (l : list element) : outcome (list element) :=
  match l with
  | [] => Ok []
  | e :: r => b ← p e; r' ← filterM p r; Ok (if b : bool then e :: r' else r')
  end.

Definition childrenOf (e : element) : outcome (list element) :=
  match el_children e with
  | Some es => Ok es
  | None => Err TypeError
  end.

(** Lines 19-21: the [GeoItem]s, or [None] when [meta] or [geo] is missing. *)
Definition findVertices (svg : element) : outcome (option (list element)) :=
  top ← childrenOf svg;
  match List.find isMetaInfo top with
  | None => Ok None
  | Some meta =>
      ms ← childrenOf meta;
      geo ← findM (hasLocal "Geo") ms;
      match geo with
      | None => Ok None
      | Some geo =>
          gs ← childrenOf geo;
          vs ← filterM (hasLocal "GeoItem") gs;
          Ok (Some vs)
      end
  end.

(** Lines 44-64: one collection per non-empty layer, in the order of
    [layerByName]. *)
Fixpoint collectLayers (opts : options) (m : Matrix) (byName : layerMap)
  : outcome (list (string * FeatureCollection)) :=
  match byName with
  | [] => Ok []
  | (name, layer) :: rest =>
      if decide (length layer = 0%nat) then collectLayers opts m rest
      else
        fs ← mapM (makeFeature opts m) layer;
        ls ← collectLayers opts m rest;
        Ok ((name, {| creator := "svg2geojson v" +:+ pkg_version; features := fs |}) :: ls)
  end.

(** Lines 28-66: the walk over [svg.$$] and the assembly of the result. *)
Definition convertLayers (doc : document) (opts : options) (convertMatrix : Matrix)
  : outcome output :=
  top ← childrenOf (svg doc);
  '(byName, _) ← forEachM (topLevel opts) (imap pair top) ([], []);
  layers_ ← collectLayers opts convertMatrix byName;
  if layers opts then Ok (Layers layers_)
  else match layers_ with
       | l0 :: _ => Ok (Single (snd l0))
       | [] => Err TypeError
       end.

Definition convertSVGToGeoJSON (doc : document) (opts : options) : outcome output :=
  trangleVertices ← findVertices (svg doc);
  vertices ← match trangleVertices with
             | Some vs => if decide (length vs = 3%nat) then Ok vs else Err (ProcessExit 1)
             | None => Err (ProcessExit 1)
             end;
  convertMatrix ← getConvertMatrix vertices;
  convertLayers doc opts convertMatrix.

(** Every feature of a result. *)
Definition allFeatures (out : output) : list Feature :=
  match out with
  | Layers ls => ls ≫= (fun l => features (snd l))
  | Single geo => features geo
  end.

End Convert.

(** ** A runtime for running examples

    It agrees with the language on the strings and numbers the examples
    use: [toNumber] and [parseFloat] read decimal integer literals with an
    optional minus sign, below 2^63 ([toNumber ""] is [0]), and
    [numToString] prints integers.  [pathDataToPolys] and [pathStartMatch] stand in for the
    flattener and for the regular expression of [addPathToLayer] on three
    fixed paths. *)

Definition digit_value (c : ascii) : option Z :=
  let n := code c in
  if bool_decide (48 <= n <= 57)%nat then Some (Z.of_nat n - 48)%Z else None.

Fixpoint read_digits (s : string) (acc : Z) : option Z :=
  match s with
  | EmptyString => Some acc
  | String c r => d ← digit_value c; read_digits r (10 * acc + d)%Z
  end.

(** A decimal integer literal with an optional minus sign; ["-0"] is [-0]. *)
Definition read_number (s : string) : option num :=
  match s with
  | EmptyString => None
  | String "-" (String c r) => (fun z => nneg (zn z)) <$> read_digits (String c r) 0
  | String "-" EmptyString => None
  | _ => zn <$> read_digits s 0
  end.

Definition example_toNumber (s : string) : num :=
  if decide (s = "") then zn 0 else default NaN (read_number s).

Definition example_parseFloat (s : string) : num :=
  default NaN (read_number s).

(** Integers are printed in decimal, other finite numbers by their
    mantissa and binary exponent. *)
Definition example_numToString (n : num) : string :=
  match Prim2SF n with
  | S754_nan => "NaN"
  | S754_infinity s => if s then "-Infinity" else "Infinity"
  | S754_zero _ => "0"
  | S754_finite s m e =>
      (if s then "-" else "") +:+
      (if (0 <=? e)%Z then pretty (Z.pos m * 2 ^ e)%Z
       else if (Z.pos m mod 2 ^ (- e) =? 0)%Z then pretty (Z.pos m / 2 ^ (- e))%Z
       else pretty (Z.pos m) +:+ "p" +:+ pretty e)
  end.

Definition zp (x y : Z) : point := (zn x, zn y).

Definition example_pathDataToPolys (d : attrval) (tolerance : num) : outcome (list poly) :=
  match d with
  | AStr "M0 0L0 10L10 10L10 0z" =>
      Ok [ {| poly_points := [zp 0 0; zp 0 10; zp 10 10; zp 10 0; zp 0 0]; closed := true |} ]
  | AStr "M0 0L10 0" =>
      Ok [ {| poly_points := [zp 0 0; zp 10 0]; closed := false |} ]
  | AStr "M5 5" =>
      Ok [ {| poly_points := [zp 5 5]; closed := false |} ]
  | _ => Err (Thrown "unsupported path")
  end.

Definition example_pathStartMatch (d : string) : option string :=
  match d with
  | "M0 0L0 10L10 10L10 0z" | "M0 0L10 0" => Some "M0 0"
  | "M5 5" => Some "M5 5"
  | _ => None
  end.

Definition exampleRuntime : Runtime :=
  {| toNumber := example_toNumber;
     parseFloat := example_parseFloat;
     numToString := example_numToString;
     pathDataToPolys := example_pathDataToPolys;
     pathStartMatch := example_pathStartMatch;
     pkg_version := "0.0.0" |}.

(** ** Notions used in the statements *)




(** *** The correspondence metadata in the words of the interface *)


Definition spec_named (local : string) (e : element) : Prop :=
  exists uri, el_ns e = Some (uri, local).

#[global] Instance spec_named_dec local e : Decision (spec_named local e).
Proof.
  unfold spec_named. destruct (el_ns e) as [[uri l]|].
  - destruct (decide (l = local)) as [->|Hne]; [left; by eexists|right].
    intros [uri' [= _ Hl]]. done.
  - right. by intros [uri' ?].
Defined.





(** The sign that [windingIsCorrect] asks of the ring at index [i], in the
    vocabulary of the specification: counter-clockwise (positive sum) for
    ring 0, clockwise (negative sum) for the others. *)
Definition requiredSign (i : nat) (ring : list point) : bool :=
  if decide (i = 0%nat) then spec_isCounterClockwise ring else spec_isClockwise ring.

(** The geometry of a path, from the polylines the flattener returned. *)
Definition pathGeometry (polys : list poly) (xform : option loc) (checkWinding : bool)
    (h : heap) (geo : Geometry) : Prop :=
  match polys with
  | [] => False
  | p0 :: rest =>
      let cs := (fun poly => coords (poly_points poly) xform h) <$> polys in
      if bool_decide (rest <> []) || closed p0 then
        type geo = Polygon /\
        shape (coordinates geo) = CRings (if checkWinding then imap normalizeRing cs else cs)
      else
        match poly_points p0 with
        | [p] => type geo = Point /\ shape (coordinates geo) = CPoint (coords [p] xform h !!! 0%nat)
        | pts => type geo = LineString /\ shape (coordinates geo) = CLine (coords pts xform h)
        end
  end.

Definition shapes (layer : list Geometry) : list coordshape :=
  (fun geo => shape (coordinates geo)) <$> layer.

Definition labels (layer : list Geometry) : list (option string) :=
  (fun geo => debugId (coordinates geo)) <$> layer.

Definition translation (tx ty : Z) : mat23 := Mat23 (zn 1) (zn 0) (zn 0) (zn 1) (zn tx) (zn ty).

(** ** Example documents *)

Definition svgNS : string := "http://www.w3.org/2000/svg".

(** An SVG element as xml2js delivers it: no [$] without attributes, no
    [$$] without children. *)
Definition node (n : string) (a : list (string * string)) (c : list element) : element :=
  Element n (Some (svgNS, n))
          (match a with [] => None | _ => Some (list_to_map a) end)
          (match c with [] => None | _ => Some c end).

Definition geoItem (x y lon lat : string) : element :=
  Element "GeoItem" (Some (prognoz, "GeoItem"))
          (Some (list_to_map [("X", x); ("Y", y); ("Longitude", lon); ("Latitude", lat)])) None.

Definition geoItems : list element :=
  [geoItem "0" "0" "0" "0"; geoItem "100" "0" "1" "0"; geoItem "0" "100" "0" "1"].

(** [<MetaInfo xmlns="http://www.prognoz.ru"><Geo>] with three [GeoItem]s
    mapping (0,0), (100,0), (0,100) to (0,0), (1,0), (0,1). *)
Definition metaInfo : element :=
  Element "MetaInfo" (Some (prognoz, "MetaInfo")) (Some {[ "xmlns" := prognoz ]})
    (Some [Element "Geo" (Some (prognoz, "Geo")) None (Some geoItems)]).

(** A calibrated document without any drawing element. *)
Definition metaOnlyDoc : document := {| svg := node "svg" [] [metaInfo] |}.

(** [<g transform="matrix(1 0 0 1 10 0)">] holding two polylines, the first
    with a transform of its own. *)
Definition movedPolyline : element :=
  node "polyline" [("points", "0,0 1,1"); ("transform", "matrix(1 0 0 1 5 0)")] [].
Definition plainPolyline : element := node "polyline" [("points", "0,0 1,1")] [].
Definition siblingsGroup : element :=
  node "g" [("transform", "matrix(1 0 0 1 10 0)")] [movedPolyline; plainPolyline].

(** [<rect id="r1" x="0" y="0" width="100" height="100"/>] in a calibrated
    document. *)
Definition labelledRect : element :=
  node "rect" [("id", "r1"); ("x", "0"); ("y", "0"); ("width", "100"); ("height", "100")] [].
Definition rectDoc : document := {| svg := node "svg" [] [metaInfo; labelledRect] |}.

(** [<polygon points="10,"/>]: one number and no pair. *)
Definition pairlessPolygon : element := node "polygon" [("points", "10,")] [].

(** [<path d="M5 5"/>]. *)
Definition dotPath : element := node "path" [("d", "M5 5")] [].

(** The square (0,0) (0,10) (10,10) (10,0) (0,0), whose sum is +200, and
    the same square walked the other way, whose sum is -200. *)
Definition ccwSquare : list point := [zp 0 0; zp 0 10; zp 10 10; zp 10 0; zp 0 0].
Definition cwSquare : list point := [zp 0 0; zp 10 0; zp 10 10; zp 0 10; zp 0 0].

(** [<polygon points="0,0 0,10 10,10 10,0"/>]. *)
Definition ccwPolygon : element := node "polygon" [("points", "0,0 0,10 10,10 10,0")] [].

(** [<polygon points="0,0 10,0 10,10 0,10"/>], the same square walked the
    other way. *)
Definition cwPolygon : element := node "polygon" [("points", "0,0 10,0 10,10 0,10")] [].


(** [<g transform="matrix(2 0 0 2 0 0)">] holding two polylines with the
    transforms [matrix(1 0 0 1 5 0)] and [matrix(1 0 0 1 7 0)]. *)
Definition scaledSiblings : element :=
  node "g" [("transform", "matrix(2 0 0 2 0 0)")]
       [movedPolyline;
        node "polyline" [("points", "0,0 1,1"); ("transform", "matrix(1 0 0 1 7 0)")] []].

(** ** Notions used in the further properties *)

(** The [switch (el['#name'])] of [addElementToLayer], as a choice among
    ten results. *)
Definition dispatch {T : Type} (name : string)
    (g path rect line circle ellipse polygon polyline noop other : T) : T :=
  match name with
  | "g" => g
  | "path" => path
  | "rect" => rect
  | "line" => line
  | "circle" => circle
  | "ellipse" => ellipse
  | "polygon" => polygon
  | "polyline" => polyline
  | "style" | "MetaInfo" | "defs" | "use" => noop
  | _ => other
  end.

(** The same choice by a chain of comparisons. *)
Definition dispatch_decide {T : Type} (name : string)
    (g path rect line circle ellipse polygon polyline noop other : T) : T :=
  if decide (name = "g") then g
  else if decide (name = "path") then path
  else if decide (name = "rect") then rect
  else if decide (name = "line") then line
  else if decide (name = "circle") then circle
  else if decide (name = "ellipse") then ellipse
  else if decide (name = "polygon") then polygon
  else if decide (name = "polyline") then polyline
  else if decide (name ∈ ["style"; "MetaInfo"; "defs"; "use"]) then noop
  else other.

(** The names with a handler of their own. *)
Definition handledNames : list string :=
  ["g"; "path"; "rect"; "line"; "circle"; "ellipse"; "polygon"; "polyline"].

(** A result of the walk, with [layer] put in front of its geometries. *)
Definition appendTo (layer : list Geometry) (r : list Geometry * list mat23)
  : list Geometry * list mat23 := (layer ++ r.1, r.2).

(** What [addElementToLayer] makes of the result of a handler: the store
    [h] left by [combineTransform] is returned with it. *)
Definition leafResult (h : list mat23) (r : outcome (list Geometry))
  : outcome (list Geometry * list mat23) := layer' ← r; Ok (layer', h).

(** The handled names that read attributes through [attrs]. *)
Definition primitiveNames : list string :=
  ["path"; "rect"; "line"; "circle"; "polygon"; "polyline"].

(** The ring of a rect at [(x, y)] of width [w] and height [hh]. *)
Definition rectRing (x y w hh : num) : list point :=
  [(x, y); (x, nadd y hh); (nadd x w, nadd y hh); (nadd x w, y); (x, y)].

(** The path data that [addCircleToLayer] joins together. *)
Definition circlePathData `{Runtime} (cx cy r : attrval) : string :=
  let s := nmul bezierCircle (to_num r) in
  let m := nsub (to_num r) s in
  let nr := ANum (nneg (to_num r)) in
  String.concat " "
    (["M"; to_str cx; to_str (js_plus cy r);
      "c"; numToString s; numToString (zn 0); to_str r; numToString (nneg m);
           to_str r; to_str nr;
      "s"; numToString (nneg m); to_str nr; to_str nr; to_str nr;
      "s"; to_str nr; numToString m; to_str nr; to_str r;
      "s"; numToString m; to_str r; to_str r; to_str r; "z"]).

(** A non-empty string of decimal digits.  Such a property name can be an
    array index, which [for ... in] lists before the other names whatever
    the order of insertion. *)
Definition indexLike (s : string) : bool :=
  negb (bool_decide (s = "")) &&
  forallb (fun c => (48 <=? code c)%nat && (code c <=? 57)%nat) (list_ascii_of_string s).

(** The entries that the loop of lines 45-64 does not skip. *)
Definition nonEmptyLayers (byName : list (string * list Geometry))
  : list (string * list Geometry) :=
  filter (fun kv => kv.2 <> []) byName.

(** A string without white space or comma. *)
Fixpoint sepFree (s : string) : bool :=
  match s with
  | EmptyString => true
  | String c r => negb (is_sep c) && sepFree r
  end.

(** A non-empty run of characters that [split] keeps together. *)
Definition isToken (s : string) : Prop := s <> "" /\ sepFree s = true.

(** A string without [")"] or line terminator. *)
Fixpoint parenFree (s : string) : bool :=
  match s with
  | EmptyString => true
  | String c r => negb (bool_decide (c = ")"%char)) && negb (is_line_terminator c) && parenFree r
  end.

(** [x1,y1 x2,y2 ...]. *)
Definition pointsText (ps : list (string * string)) : string :=
  String.concat " " ((fun p => p.1 +:+ "," +:+ p.2) <$> ps).

(** The entries of such a text, in order. *)
Definition tokensOf (ps : list (string * string)) : list string :=
  ps ≫= (fun p => [p.1; p.2]).

(** [p] occurs in [s]. *)
Fixpoint occursIn (p s : string) : bool :=
  match strip_prefix p s with
  | Some _ => true
  | None => match s with
            | EmptyString => false
            | String _ r => occursIn p r
            end
  end.

(** The property names that the object literal [{}] inherits from
    [Object.prototype]: under these [layerByName[name]] is never empty. *)
Definition objectPrototypeNames : list string :=
  ["constructor"; "hasOwnProperty"; "isPrototypeOf"; "propertyIsEnumerable";
   "toLocaleString"; "toString"; "valueOf"; "__proto__";
   "__defineGetter__"; "__defineSetter__"; "__lookupGetter__"; "__lookupSetter__"].

(** The key of [layerByName] that the callback of line 29 works on. *)
Definition layerNameFor `{Runtime} (opts : options) (i : nat) (el : element) : string :=
  if layers opts && bool_decide (el_name el = "g") then
    match el_attrs el with
    | Some a => match a !! "id" with
                | Some v => underscores_to_spaces (strip_1_suffix v)
                | None => "Layer " +:+ numToString (zn (Z.of_nat i))
                end
    | None => ""
    end
  else "".

(** [g] carries the label that [addDebugId] computes for [el], whatever
    the fallback of the handler. *)
Definition labelledFor (el : element) (g : Geometry) : Prop :=
  exists fallback, debugId (coordinates g) = Some (debugLabel el fallback).

(** [g] carries a label. *)
Definition labelled (g : Geometry) : Prop := is_Some (debugId (coordinates g)).

(** What a handler returns is the layer it was given, followed by at most
    one geometry, labelled for the element. *)
Definition pushesLabelled (el : element) (layer : list Geometry)
    (r : outcome (list Geometry)) : Prop :=
  forall layer', r = Ok layer' ->
    exists news, layer' = layer ++ news /\ (length news <= 1)%nat /\
                 Forall (labelledFor el) news.

(** ** Further examples *)

(** A runtime whose flattener answers every path with [cwSquare], closed. *)
Definition squareRuntime : Runtime :=
  {| toNumber := example_toNumber;
     parseFloat := example_parseFloat;
     numToString := example_numToString;
     pathDataToPolys := fun _ _ => Ok [ {| poly_points := cwSquare; closed := true |} ];
     pathStartMatch := example_pathStartMatch;
     pkg_version := "0.0.0" |}.

(** [<circle cx="5" cy="5" r="5"/>]. *)
Definition smallCircle : element := node "circle" [("cx", "5"); ("cy", "5"); ("r", "5")] [].

(** [<g>] with an [<ellipse>] between two polylines. *)
Definition ellipseGroup : element :=
  node "g" [] [plainPolyline; node "ellipse" [("rx", "1")] []; plainPolyline].

(** A layer map with an empty layer before a layer of one point. *)
Definition twoLayers : list (string * list Geometry) :=
  [("empty", []); ("dots", [ {| type := Point; coordinates := new_array (CPoint (zp 1 2)) |} ])].

(** * Theorems *)

(** ** The string helpers on examples *)

Example split_sep_runs : split_sep " 1,2  3 ," = [""; "1"; "2"; "3"; ""].
Proof. reflexivity. Qed.

Example split_sep_empty : split_sep "" = [""].
Proof. reflexivity. Qed.

Example matrix_exec_first : matrix_exec "rotate(3) matrix(1 0 0 1 10 0) x" = Some "1 0 0 1 10 0".
Proof. reflexivity. Qed.

Example matrix_exec_needs_one_char : matrix_exec "matrix() matrix(7)" = Some ") matrix(7".
Proof. reflexivity. Qed.

Example layer_name : underscores_to_spaces (strip_1_suffix "Main_Roads_1_") = "Main Roads".
Proof. reflexivity. Qed.

(** ** Numbers *)

Lemma Prim2SF_NaN : Prim2SF NaN = S754_nan.
Proof. reflexivity. Qed.

Lemma nadd_NaN_l a : nadd NaN a = NaN.
Proof. apply Prim2SF_inj. unfold nadd. rewrite add_spec. reflexivity. Qed.

Lemma nadd_NaN_r a : nadd a NaN = NaN.
Proof.
  apply Prim2SF_inj. unfold nadd. rewrite add_spec, Prim2SF_NaN.
  by destruct (Prim2SF a).
Qed.

Lemma nmul_NaN_l a : nmul NaN a = NaN.
Proof. apply Prim2SF_inj. unfold nmul. rewrite mul_spec. reflexivity. Qed.

Lemma nmul_NaN_r a : nmul a NaN = NaN.
Proof.
  apply Prim2SF_inj. unfold nmul. rewrite mul_spec, Prim2SF_NaN.
  by destruct (Prim2SF a).
Qed.

(** There is one [NaN]. *)
Lemma is_NaN_spec a : is_NaN a = true <-> a = NaN.
Proof.
  split; [|by intros ->].
  unfold is_NaN, is_nan. rewrite FloatAxioms.eqb_spec. intros H.
  apply Prim2SF_inj. rewrite Prim2SF_NaN.
  destruct (Prim2SF a) eqn:E; try done; exfalso; revert H.
  all: unfold SFeqb, SFcompare.
  - by destruct s.
  - pose proof (Pos.compare_refl m) as Hm. unfold Pos.compare in Hm.
    destruct s; rewrite Z.compare_refl; cbv [PosDef.Pos.compare_cont] in *;
      fold Pos.compare_cont in *; rewrite Hm; done.
Qed.

(** ** The winding sum *)

Lemma fold_left_terms {A} (t : A -> num) (l : list A) (a : num) :
  fold_left (fun sum i => nadd sum (t i)) l a = fold_left nadd (t <$> l) a.
Proof. revert a. induction l as [|x l IH]; intros a; csimpl; [done|apply IH]. Qed.

(** The point that iteration [i] reads as [p0] is the one standing before
    [pts[i]] when the last point is put in front. *)
Lemma predecessor_lookup (p0 : point) (pts : list point) (i : nat) :
  (i < length pts)%nat ->
  (default p0 (last pts) :: pts) !! i
  = Some (pts !!! ((if decide (i = 0%nat) then length pts else i) - 1)%nat).
Proof.
  intros Hi. destruct i as [|i]; csimpl.
  - rewrite last_lookup.
    replace (length pts - 1)%nat with (pred (length pts)) by lia.
    destruct (pts !! pred (length pts)) as [p|] eqn:Hp.
    + by rewrite (list_lookup_total_correct _ _ _ Hp).
    + apply lookup_ge_None in Hp. lia.
  - rewrite Nat.sub_0_r. apply list_lookup_lookup_total_lt. lia.
Qed.

(** The loop of [windingIsCorrect] computes the accumulation of the
    specification, summand by summand and in the same order. *)
Lemma winding_sum_shoelace (pts : list point) : winding_sum pts = spec_shoelace pts.
Proof.
  unfold winding_sum, spec_shoelace. rewrite fold_left_terms.
  destruct pts as [|p0 rest]; [done|].
  remember (p0 :: rest) as pts eqn:E. clear E rest. f_equal.
  apply list_eq. intros i. rewrite list_lookup_fmap, lookup_zip_with.
  pose proof (predecessor_lookup p0 pts i) as Hp. unfold winding_term.
  unfold point in *.
  destruct (decide (i < length pts)%nat) as [Hi|Hi].
  - rewrite lookup_seq_lt by done. rewrite (Hp Hi).
    rewrite (list_lookup_lookup_total_lt pts i Hi). reflexivity.
  - rewrite lookup_seq_ge by lia.
    rewrite (lookup_ge_None_2 pts i) by lia.
    by destruct ((default p0 (last pts) :: pts) !! i).
Qed.

Lemma windingIsCorrect_spec (pts : list point) (i : nat) :
  windingIsCorrect pts i = requiredSign i pts.
Proof.
  unfold windingIsCorrect, requiredSign, spec_isCounterClockwise, spec_isClockwise.
  by rewrite winding_sum_shoelace.
Qed.

(** ** The loop over the rings *)

Lemma checkWindingStep_lookup (rings : list (list point)) (j i : nat) :
  checkWindingStep rings j !! i
  = if decide (i = j) then normalizeRing j <$> rings !! j else rings !! i.
Proof.
  unfold checkWindingStep, normalizeRing.
  destruct (rings !! j) as [ring|] eqn:Hj; csimpl.
  - assert (Hlt : (j < length rings)%nat) by (by eapply lookup_lt_Some).
    destruct (windingIsCorrect ring j); case_decide; subst; try done.
    + by rewrite list_lookup_insert_eq.
    + by rewrite list_lookup_insert_ne.
  - case_decide; subst; done.
Qed.

Lemma checkWindingSteps_lookup (js : list nat) (rings : list (list point)) (i : nat) :
  NoDup js ->
  fold_left checkWindingStep js rings !! i
  = if decide (i ∈ js) then normalizeRing i <$> rings !! i else rings !! i.
Proof.
  intros Hnd. revert rings.
  induction Hnd as [|j js Hj Hnd IH]; intros rings; cbn [fold_left].
  - case_decide; [set_solver|done].
  - rewrite IH, checkWindingStep_lookup.
    destruct (decide (i = j)) as [->|Hne].
    + rewrite (decide_False (P := j ∈ js)) by done.
      by rewrite (decide_True (P := j ∈ j :: js)) by (apply elem_of_cons; auto).
    + destruct (decide (i ∈ js)).
      * by rewrite (decide_True (P := i ∈ j :: js)) by (apply elem_of_cons; auto).
      * by rewrite (decide_False (P := i ∈ j :: js)) by (rewrite elem_of_cons; tauto).
Qed.

Lemma checkWindingLoop_lookup (rings : list (list point)) (i : nat) :
  checkWindingLoop rings !! i = normalizeRing i <$> rings !! i.
Proof.
  unfold checkWindingLoop.
  rewrite checkWindingSteps_lookup by (rewrite reverse_Permutation; apply NoDup_seq).
  case_decide as Hi; [done|].
  rewrite lookup_ge_None_2; [done|].
  destruct (decide (i < length rings)%nat); [|lia].
  exfalso. apply Hi. rewrite elem_of_reverse, elem_of_seq. lia.
Qed.

Lemma checkWindingLoop_imap (rings : list (list point)) :
  checkWindingLoop rings = imap normalizeRing rings.
Proof.
  apply list_eq. intros i. by rewrite checkWindingLoop_lookup, list_lookup_imap.
Qed.

(** ** The winding rule *)

Lemma normalizeRing_spec (i : nat) (ring : list point) :
  normalizeRing i ring = if requiredSign i ring then ring else reverse ring.
Proof. unfold normalizeRing. by rewrite windingIsCorrect_spec. Qed.

Lemma normalizeRing_twice (i : nat) (ring : list point) :
  normalizeRing i (normalizeRing i ring)
  = if windingIsCorrect ring i || windingIsCorrect (reverse ring) i
    then normalizeRing i ring else ring.
Proof.
  unfold normalizeRing.
  destruct (windingIsCorrect ring i) eqn:Hr; csimpl; [by rewrite Hr|].
  destruct (windingIsCorrect (reverse ring) i) eqn:Hrr; [done|].
  by rewrite reverse_involutive.
Qed.






(** ** Composition of transforms *)

Section TransformFacts.
Context `{Runtime}.

Lemma combineTransform_matrix (el : element) (a : gmap string string) (value args1 : string)
    (xform : option loc) (h : heap) :
  el_attrs el = Some a -> a !! "transform" = Some value -> matrix_exec value = Some args1 ->
  combineTransform el xform h =
    match xform with
    | Some x => (Some x, mat23_multiply x x (length h) (h ++ [localMatrix args1]))
    | None => (Some (length h), h ++ [localMatrix args1])
    end.
Proof.
  intros Ha Ht Hm. unfold combineTransform. by rewrite Ha, Ht, Hm.
Qed.

(** Without a [matrix(...)] transform the running transform is passed on. *)
Lemma combineTransform_none (el : element) (xform : option loc) (h : heap) :
  match el_attrs el with
  | Some a => match a !! "transform" with
              | Some value => matrix_exec value = None
              | None => True
              end
  | None => True
  end ->
  combineTransform el xform h = (xform, h).
Proof.
  unfold combineTransform. destruct (el_attrs el) as [a|]; [|done].
  destruct (a !! "transform") as [value|]; [|done]. by intros ->.
Qed.

(** [mat23.multiply(xform, xform, mat)] overwrites the object [xform]
    refers to. *)
Lemma multiply_in_place (x : loc) (h : heap) (m : mat23) :
  (x < length h)%nat ->
  mat23_multiply x x (length h) (h ++ [m]) !!! x = mat23_mul (h !!! x) m.
Proof.
  intros Hx. unfold mat23_multiply.
  apply list_lookup_total_correct.
  rewrite list_lookup_insert_eq by (rewrite length_app; simpl; lia).
  f_equal. f_equal.
  - apply list_lookup_total_correct. rewrite lookup_app_l by done.
    by apply list_lookup_lookup_total_lt.
  - apply list_lookup_total_correct. by rewrite list_lookup_middle.
Qed.

(** The case ["g"] of [addElementToLayer] is [addGroupToLayer] with the
    combined transform. *)
Lemma addElementToLayer_group (el : element) (layer : list Geometry) (xform : option loc)
    (h : heap) :
  el_name el = "g" ->
  addElementToLayer el layer xform h
  = addGroupToLayer el layer (combineTransform el xform h).1 (combineTransform el xform h).2.
Proof.
  destruct el as [name ns a children]. simpl. intros ->.
  unfold addGroupToLayer. simpl.
  by destruct (combineTransform (Element "g" ns a children) xform h).
Qed.

End TransformFacts.

(** C3 fails on the code, by the defect of C4: in [scaledSiblings] the
    group scales by 2 and its two polylines translate by 5 and by 7.  The
    first is emitted as parent after child, [x -> 2 (x + 5)].  The second
    should be [x -> 2 (x + 7)], but the transform it composes with is the
    group's object as the first polyline left it, and it is emitted as
    [x -> 2 ((x + 7) + 5)]. *)
Theorem C3_later_sibling_composition :
  let parent := Mat23 (zn 2) (zn 0) (zn 0) (zn 2) (zn 0) (zn 0) in
  let pts := [zp 0 0; zp 1 1; zp 0 0] in
  exists layer h,
    addElementToLayer (H := exampleRuntime) scaledSiblings [] None [] = Ok (layer, h) /\
    shapes layer
    = [CLine (transformMat23 parent <$> (transformMat23 (translation 5 0) <$> pts));
       CLine (transformMat23 parent <$> (transformMat23 (translation 5 0)
                                           <$> (transformMat23 (translation 7 0) <$> pts)))] /\
    shapes layer = [CLine [zp 10 0; zp 12 2; zp 10 0]; CLine [zp 24 0; zp 26 2; zp 24 0]] /\
    transformMat23 parent <$> (transformMat23 (translation 7 0) <$> pts)
    = [zp 14 0; zp 16 2; zp 14 0].
Proof.
  intros parent pts. eexists _, _. split; [vm_compute; reflexivity|].
  split; [|split]; vm_compute; reflexivity.
Qed.

(** C4 fails on the code: in [siblingsGroup] the first polyline's
    [matrix(1 0 0 1 5 0)] is multiplied into the group's own transform
    object, so the second polyline, which has no transform, is moved by 15
    instead of 10, and the group's object ends as the translation by 15. *)
Theorem C4_sibling_sees_earlier_transform :
  exists layer h,
    addElementToLayer (H := exampleRuntime) siblingsGroup [] None [] = Ok (layer, h) /\
    shapes layer = [CLine [zp 15 0; zp 16 1; zp 15 0]; CLine [zp 15 0; zp 16 1; zp 15 0]] /\
    h !! 0%nat = Some (translation 15 0) /\
    h !! 0%nat <> Some (translation 10 0).
Proof.
  eexists _, _. split; [vm_compute; reflexivity|].
  split; [|split].
  - apply (bool_decide_unpack _). vm_compute. exact I.
  - apply (bool_decide_unpack _). vm_compute. exact I.
  - apply (bool_decide_eq_false_1 _). vm_compute. reflexivity.
Qed.

(** On its own the second polyline of the group is moved by 10. *)
Example plainPolyline_alone :
  exists layer h,
    addElementToLayer (H := exampleRuntime)
      (node "g" [("transform", "matrix(1 0 0 1 10 0)")] [plainPolyline]) [] None []
    = Ok (layer, h) /\
    shapes layer = [CLine [zp 10 0; zp 11 1; zp 10 0]].
Proof.
  eexists _, _. split; [vm_compute; reflexivity|].
  apply (bool_decide_unpack _). vm_compute. exact I.
Qed.

(** ** Primitives *)

Section PrimitiveFacts.
Context `{Runtime}.

(** [addDebugId] after [layer.push(geo)] labels the entry just pushed. *)
Lemma insert_pushed {A} (layer : list A) (x y : A) :
  <[length layer := y]> (layer ++ [x]) = layer ++ [y].
Proof.
  rewrite insert_app_r_alt by lia. by rewrite Nat.sub_diag.
Qed.

(** An attribute whose text does not coerce to a number is read as that
    text. *)
Lemma attrs_text (el : element) (a : gmap string string) (n s : string) :
  el_attrs el = Some a -> a !! n = Some s -> is_NaN (toNumber s) = true ->
  exists c, attrs el = Ok c /\ c n = AStr s.
Proof.
  intros Ha Hn Hnan. exists (attr_value a). unfold attrs, attr_value.
  by rewrite Ha, Hn, Hnan.
Qed.

Lemma parse_pairs_empty_text : parse_pairs (split_sep "") = [].
Proof. reflexivity. Qed.

Lemma length_coords (pts : list point) (xform : option loc) (h : heap) :
  length (coords pts xform h) = length pts.
Proof. unfold coords. destruct xform; [apply length_fmap|done]. Qed.

Lemma addPathData_geometry layer xform d cw h polys :
  pathDataToPolys d svgTolerance = Ok polys -> polys <> [] ->
  exists geo, addPathData layer xform d cw h = Ok (geo, layer ++ [geo]) /\
              pathGeometry polys xform cw h geo.
Proof.
  intros Hp Hne. unfold addPathData. rewrite Hp. csimpl.
  destruct polys as [|p0 rest]; [done|]. csimpl.
  eexists. split; [reflexivity|]. unfold pathGeometry. cbv zeta.
  assert (Hlen : bool_decide (1 < S (length rest))%nat = bool_decide (rest <> [])).
  { apply bool_decide_ext. destruct rest; simpl; split; (done || lia). }
  rewrite Hlen.
  destruct (bool_decide (rest <> []) || closed p0) eqn:Hpoly.
  - split; [done|]. by rewrite checkWindingLoop_imap.
  - destruct (poly_points p0) as [|p [|p' pts]] eqn:Hpts.
    + rewrite decide_False by (rewrite length_coords; simpl; lia). done.
    + rewrite decide_True by (rewrite length_coords; simpl; lia). done.
    + rewrite decide_False by (rewrite length_coords; simpl; lia). done.
Qed.

(** The flattener returning no polyline makes [polys[0].closed] throw. *)
Lemma addPathData_no_polys layer xform d cw h :
  pathDataToPolys d svgTolerance = Ok [] ->
  addPathData layer xform d cw h = Err TypeError.
Proof. intros Hp. unfold addPathData. by rewrite Hp. Qed.

(** C6: a path whose data flattens to the polylines [polys] becomes a
    Polygon with one (winding-corrected) ring per polyline when there are
    several polylines or the only one is closed; otherwise a LineString of
    the only polyline, or a Point when that polyline has exactly one
    coordinate. *)
Theorem C6_path_geometry_type (el : element) (layer : list Geometry) (xform : option loc)
    (h : heap) (a : gmap string string) (d : string) (polys : list poly) :
  el_attrs el = Some a -> a !! "d" = Some d -> is_NaN (toNumber d) = true -> d <> "" ->
  pathDataToPolys (AStr d) svgTolerance = Ok polys -> polys <> [] ->
  exists geo, addPathToLayer el layer xform h = Ok (layer ++ [geo]) /\
              pathGeometry polys xform true h geo.
Proof.
  intros Ha Hd Hnan Hne Hp Hpolys.
  destruct (attrs_text el a "d" d Ha Hd Hnan) as (c & Hc & Hcd).
  destruct (addPathData_geometry layer xform (AStr d) true h polys Hp Hpolys)
    as (geo & Hgeo & Hshape).
  unfold addPathToLayer. rewrite Hc. csimpl. rewrite Hcd.
  unfold truthy. rewrite bool_decide_eq_true_2 by done.
  rewrite Hgeo. csimpl. rewrite insert_pushed.
  eexists. split; [reflexivity|].
  unfold pathGeometry in *. destruct polys as [|p0 rest]; [done|]. exact Hshape.
Qed.

(** C7: a polyline whose [points] text yields at least one pair becomes a
    LineString of the pairs in input order followed by a copy of the first,
    each passed through the running transform. *)
Theorem C7_polyline_coordinates (el : element) (layer : list Geometry) (xform : option loc)
    (h : heap) (a : gmap string string) (s : string) (p0 : point) (ps : list point) :
  el_attrs el = Some a -> a !! "points" = Some s -> is_NaN (toNumber s) = true ->
  parse_pairs (split_sep s) = p0 :: ps ->
  exists geo, addPolylineToLayer el layer xform h = Ok (layer ++ [geo]) /\
              type geo = LineString /\
              shape (coordinates geo) = CLine (coords ((p0 :: ps) ++ [p0]) xform h).
Proof.
  intros Ha Hs Hnan Hpairs.
  destruct (attrs_text el a "points" s Ha Hs Hnan) as (c & Hc & Hcp).
  assert (Hne : s <> "") by (intros ->; by rewrite parse_pairs_empty_text in Hpairs).
  unfold addPolylineToLayer. rewrite Hc. csimpl. rewrite Hcp.
  unfold truthy. rewrite bool_decide_eq_true_2 by done. csimpl.
  rewrite Hpairs. csimpl.
  eexists. split; [reflexivity|]. done.
Qed.

(** The ring of a polygon element is the closed list of pairs, normalised
    as ring 0. *)
Lemma addPolygonToLayer_ring (el : element) (layer : list Geometry) (xform : option loc)
    (h : heap) (a : gmap string string) (s : string) (p0 : point) (ps : list point) :
  el_attrs el = Some a -> a !! "points" = Some s -> is_NaN (toNumber s) = true ->
  parse_pairs (split_sep s) = p0 :: ps ->
  exists geo, addPolygonToLayer el layer xform h = Ok (layer ++ [geo]) /\
              type geo = Polygon /\
              shape (coordinates geo)
              = CRings [normalizeRing 0 (coords ((p0 :: ps) ++ [p0]) xform h)].
Proof.
  intros Ha Hs Hnan Hpairs.
  destruct (attrs_text el a "points" s Ha Hs Hnan) as (c & Hc & Hcp).
  assert (Hne : s <> "") by (intros ->; by rewrite parse_pairs_empty_text in Hpairs).
  unfold addPolygonToLayer. rewrite Hc. csimpl. rewrite Hcp.
  unfold truthy. rewrite bool_decide_eq_true_2 by done. csimpl.
  rewrite Hpairs. csimpl.
  eexists. split; [reflexivity|]. done.
Qed.

(** A polygon without a [points] attribute (but with some other attribute)
    is skipped. *)
Lemma addPolygonToLayer_no_points (el : element) (layer : list Geometry)
    (xform : option loc) (h : heap) (a : gmap string string) :
  el_attrs el = Some a -> a !! "points" = None ->
  addPolygonToLayer el layer xform h = Ok layer.
Proof.
  intros Ha Hs. unfold addPolygonToLayer, attrs. rewrite Ha. csimpl.
  unfold attr_value. rewrite Hs. reflexivity.
Qed.

(** C8 fails on the code: a polygon whose [points] text yields no pair is
    not skipped; [pts[0].concat()] is evaluated on [undefined] and throws. *)
Theorem C8_polygon_without_pairs_throws (el : element) (layer : list Geometry)
    (xform : option loc) (h : heap) (a : gmap string string) (s : string) :
  el_attrs el = Some a -> a !! "points" = Some s -> is_NaN (toNumber s) = true ->
  s <> "" -> parse_pairs (split_sep s) = [] ->
  addPolygonToLayer el layer xform h = Err TypeError.
Proof.
  intros Ha Hs Hnan Hne Hpairs.
  destruct (attrs_text el a "points" s Ha Hs Hnan) as (c & Hc & Hcp).
  unfold addPolygonToLayer. rewrite Hc. csimpl. rewrite Hcp.
  unfold truthy. rewrite bool_decide_eq_true_2 by done. csimpl.
  by rewrite Hpairs.
Qed.

(** C1 (amended): in the Polygon of a path element every ring is kept when
    the accumulation of the specification has the sign asked of its index,
    strictly positive for ring 0 and strictly negative for the others, and
    is reversed otherwise; the ring of a polygon element is treated as
    ring 0.  With a negative sum read as clockwise, ring 0 is kept when
    counter-clockwise and a hole when clockwise. *)
Theorem C1_winding_rule (el : element) (a : gmap string string) (layer : list Geometry)
    (xform : option loc) (h : heap) :
  el_attrs el = Some a ->
  (forall d polys,
     a !! "d" = Some d -> is_NaN (toNumber d) = true -> d <> "" ->
     pathDataToPolys (AStr d) svgTolerance = Ok polys ->
     (1 < length polys)%nat \/ closed <$> head polys = Some true ->
     exists geo, addPathToLayer el layer xform h = Ok (layer ++ [geo]) /\
                 type geo = Polygon /\
                 shape (coordinates geo)
                 = CRings (imap (fun i ring => if requiredSign i ring then ring else reverse ring)
                                ((fun poly => coords (poly_points poly) xform h) <$> polys))) /\
  (forall s p0 ps,
     a !! "points" = Some s -> is_NaN (toNumber s) = true ->
     parse_pairs (split_sep s) = p0 :: ps ->
     exists geo, addPolygonToLayer el layer xform h = Ok (layer ++ [geo]) /\
                 type geo = Polygon /\
                 shape (coordinates geo)
                 = CRings [let ring := coords ((p0 :: ps) ++ [p0]) xform h in
                           if requiredSign 0 ring then ring else reverse ring]).
Proof.
  intros Ha. split.
  - intros d polys Hd Hnan Hne Hp Hpoly.
    assert (Hpolys : polys <> []) by (intros ->; destruct Hpoly as [Hl|Hc]; [simpl in Hl; lia|done]).
    destruct (attrs_text el a "d" d Ha Hd Hnan) as (c & Hattrs & Hcd).
    destruct (addPathData_geometry layer xform (AStr d) true h polys Hp Hpolys)
      as (geo0 & Hgeo & Hshape).
    unfold addPathToLayer. rewrite Hattrs. csimpl. rewrite Hcd.
    unfold truthy. rewrite bool_decide_eq_true_2 by done.
    rewrite Hgeo. csimpl. rewrite insert_pushed.
    eexists. split; [reflexivity|]. cbn [type coordinates shape addDebugId].
    unfold pathGeometry in Hshape. destruct polys as [|p0 rest]; [done|].
    cbv zeta in Hshape.
    assert (Hb : bool_decide (rest <> []) || closed p0 = true).
    { destruct Hpoly as [Hl|Hc].
      - rewrite bool_decide_eq_true_2; [done|]. intros ->. simpl in Hl. lia.
      - simpl in Hc. injection Hc as ->. apply orb_true_r. }
    rewrite Hb in Hshape. destruct Hshape as [Ht Hs]. split; [exact Ht|].
    rewrite Hs. f_equal. apply imap_ext. intros i ring _. apply normalizeRing_spec.
  - intros s p0 ps Hs Hnan Hpairs.
    destruct (addPolygonToLayer_ring el layer xform h a s p0 ps Ha Hs Hnan Hpairs)
      as (geo & Hgeo & Ht & Hshape).
    exists geo. split; [exact Hgeo|]. split; [exact Ht|].
    rewrite Hshape. cbv zeta. by rewrite normalizeRing_spec.
Qed.

End PrimitiveFacts.

(** A path flattened to the clockwise square and the polygon
    [<polygon points="0,0 10,0 10,10 0,10"/>]: both rings are reversed. *)
Lemma C1_winding_rule_witness :
  (exists geo, addPathToLayer (H := squareRuntime) dotPath [] None [] = Ok ([] ++ [geo]) /\
               type geo = Polygon /\ shape (coordinates geo) = CRings [ccwSquare]) /\
  (exists geo, addPolygonToLayer (H := squareRuntime) cwPolygon [] None [] = Ok ([] ++ [geo]) /\
               type geo = Polygon /\ shape (coordinates geo) = CRings [ccwSquare]).
Proof.
  destruct (C1_winding_rule (H := squareRuntime) dotPath (list_to_map [("d", "M5 5")])
              [] None [] eq_refl) as [Hpath _].
  destruct (C1_winding_rule (H := squareRuntime) cwPolygon
              (list_to_map [("points", "0,0 10,0 10,10 0,10")]) [] None [] eq_refl)
    as [_ Hpolygon].
  split.
  - apply (Hpath "M5 5" [ {| poly_points := cwSquare; closed := true |} ]);
      try reflexivity; [done|by right].
  - apply (Hpolygon "0,0 10,0 10,10 0,10" (zp 0 0) [zp 10 0; zp 10 10; zp 0 10]); reflexivity.
Defined.

(** C1 as stated fails: with ring 0 required clockwise (negative sum), the
    square of sum +200 does not match, yet the loop leaves it unreversed. *)
Lemma C1_counterexample :
  ~ (forall (rings : list (list point)) (i : nat) (ring : list point),
        rings !! i = Some ring -> spec_windingMatches ring i = false ->
        checkWindingLoop rings !! i = Some (reverse ring)).
Proof.
  intros Hc. specialize (Hc [ccwSquare] 0%nat ccwSquare eq_refl).
  assert (Hm : spec_windingMatches ccwSquare 0 = false) by (vm_compute; reflexivity).
  assert (Hne : checkWindingLoop [ccwSquare] !! 0%nat <> Some (reverse ccwSquare))
    by (vm_compute; congruence).
  exact (Hne (Hc Hm)).
Qed.

(** [<path d="M5 5"/>] becomes a Point. *)
Lemma C6_path_geometry_type_witness :
  exists geo, addPathToLayer (H := exampleRuntime) dotPath [] None [] = Ok ([] ++ [geo]) /\
              pathGeometry [ {| poly_points := [zp 5 5]; closed := false |} ] None true [] geo.
Proof.
  apply (C6_path_geometry_type (H := exampleRuntime) dotPath [] None []
           (list_to_map [("d", "M5 5")]) "M5 5"); try reflexivity; done.
Defined.

(** [<polyline points="0,0 1,1"/>] becomes the LineString (0,0) (1,1) (0,0). *)
Lemma C7_polyline_coordinates_witness :
  exists geo, addPolylineToLayer (H := exampleRuntime) plainPolyline [] None [] = Ok ([] ++ [geo]) /\
              type geo = LineString /\
              shape (coordinates geo) = CLine (coords ([zp 0 0; zp 1 1] ++ [zp 0 0]) None []).
Proof.
  apply (C7_polyline_coordinates (H := exampleRuntime) plainPolyline [] None []
           (list_to_map [("points", "0,0 1,1")]) "0,0 1,1" (zp 0 0) [zp 1 1]); reflexivity.
Defined.

(** [<polygon points="10,"/>] throws. *)
Lemma C8_polygon_without_pairs_throws_witness :
  addPolygonToLayer (H := exampleRuntime) pairlessPolygon [] None [] = Err TypeError.
Proof.
  apply (C8_polygon_without_pairs_throws (H := exampleRuntime) pairlessPolygon [] None []
           (list_to_map [("points", "10,")]) "10,"); try reflexivity; done.
Defined.

(** A polygon element without any attribute throws as well: [attrs] reads
    [el.$[n]] with [el.$] undefined. *)
Example bare_polygon_throws :
  addPolygonToLayer (H := exampleRuntime) (node "polygon" [] []) [] None [] = Err TypeError.
Proof. reflexivity. Qed.

(** [<polygon points="0,0 0,10 10,10 10,0"/>], of sum +200, is emitted in
    input order. *)
Example ccwPolygon_kept :
  shapes <$> addPolygonToLayer (H := exampleRuntime) ccwPolygon [] None []
  = Ok [CRings [ccwSquare]].
Proof. apply (bool_decide_unpack _). vm_compute. exact I. Qed.

(** ** Calibration and the assembled result *)







Section ConvertFacts.
Context `{Runtime}.

Lemma mapM_outcome_Forall {A B : Type} (f : A -> outcome B) (P : B -> Prop)
    (l : list A) (ys : list B) :
  (forall x y, f x = Ok y -> P y) -> mapM f l = Ok ys -> Forall P ys.
Proof.
  intros Hf. revert ys. induction l as [|x l IH]; intros ys; csimpl.
  - intros [= <-]. constructor.
  - destruct (f x) as [y|] eqn:Hx; csimpl; [|done].
    destruct (mapM f l) as [k|]; csimpl; [|done].
    intros [= <-]. constructor; eauto.
Qed.

(** The array returned by [convertCoordinates] carries no [debugId]. *)
Lemma convertCoordinates_fresh (cs cs' : coordarray) (m : Matrix) :
  convertCoordinates cs m = Ok cs' -> debugId cs' = None.
Proof.
  unfold convertCoordinates.
  destruct (match shape cs with CPoint _ => _ | _ => _ end) as [sh|]; csimpl; [|done].
  by intros [= <-].
Qed.

Lemma makeFeature_debug (l : bool) (m : Matrix) (data : Geometry) (f : Feature) :
  makeFeature {| layers := l; debug := true |} m data = Ok f ->
  properties f = Some {| svgID := None |}.
Proof.
  unfold makeFeature.
  destruct (convertCoordinates (coordinates data) m) as [cs|] eqn:Hcs; csimpl; [|done].
  intros [= <-]. csimpl. by rewrite (convertCoordinates_fresh _ _ _ Hcs).
Qed.

Lemma collectLayers_debug (l : bool) (m : Matrix) (byName : layerMap)
    (ls : list (string * FeatureCollection)) :
  collectLayers {| layers := l; debug := true |} m byName = Ok ls ->
  Forall (fun kv => Forall (fun f => properties f = Some {| svgID := None |})
                           (features (snd kv))) ls.
Proof.
  revert ls. induction byName as [|[name layer] byName IH]; intros ls; csimpl.
  - intros [= <-]. constructor.
  - case_decide; [by apply IH|].
    destruct (mapM _ layer) as [fs|] eqn:Hfs; csimpl; [|done].
    destruct (collectLayers _ m byName) as [ls'|]; csimpl; [|done].
    intros [= <-]. constructor; [|by apply IH].
    csimpl. eapply mapM_outcome_Forall; [|exact Hfs].
    intros data f. apply makeFeature_debug.
Qed.

Lemma convertLayers_debug (doc : document) (l : bool) (m : Matrix) (out : output) :
  convertLayers doc {| layers := l; debug := true |} m = Ok out ->
  Forall (fun f => properties f = Some {| svgID := None |}) (allFeatures out).
Proof.
  unfold convertLayers. intros Hout.
  destruct (childrenOf (svg doc)) as [top|]; [|done]. csimpl in Hout.
  destruct (forEachM _ _ _) as [[byName h]|]; [|done]. csimpl in Hout.
  destruct (collectLayers _ m byName) as [ls|] eqn:Hls; [|done]. csimpl in Hout.
  pose proof (collectLayers_debug l m byName ls Hls) as Hall. clear Hls.
  destruct l; csimpl in Hout.
  - injection Hout as <-. csimpl.
    induction Hall as [|kv ls Hkv _ IH]; csimpl; [constructor|].
    apply Forall_app. done.
  - destruct ls as [|l0 ls]; [done|].
    injection Hout as <-. csimpl. by inversion Hall.
Qed.

(** Without debug mode [properties] is [null]. *)
Lemma makeFeature_no_debug (l : bool) (m : Matrix) (data : Geometry) (f : Feature) :
  makeFeature {| layers := l; debug := false |} m data = Ok f -> properties f = None.
Proof.
  unfold makeFeature.
  destruct (convertCoordinates (coordinates data) m) as [cs|]; csimpl; [|done].
  by intros [= <-].
Qed.

(** C5 fails on the code: in debug mode every feature of every result has
    [properties = { svgID: undefined }]; the label set by [addDebugId] sits
    on the array that [convertCoordinates] has just replaced. *)
Theorem C5_debug_label_lost (doc : document) (l : bool) (out : output) :
  convertSVGToGeoJSON doc {| layers := l; debug := true |} = Ok out ->
  Forall (fun f => properties f = Some {| svgID := None |}) (allFeatures out).
Proof.
  unfold convertSVGToGeoJSON. intros Hout.
  destruct (findVertices (svg doc)) as [vs|]; [|done]. csimpl in Hout.
  destruct (match vs with Some _ => _ | None => _ end) as [vertices|]; [|done].
  csimpl in Hout.
  destruct (getConvertMatrix vertices) as [m|]; [|done]. csimpl in Hout.
  by eapply convertLayers_debug.
Qed.








(** C10: [metaOnlyDoc] has exactly three [GeoItem]s, and when their
    coordinates are read as finite numbers and their source points are not
    collinear the default conversion fails with a TypeError: the only layer
    is empty and dropped, and [layers[0].geo] reads [undefined]. *)
Theorem C10_no_geometry_fails (d : bool) :
  finiteTriangle (parseFloat <$> ["0"; "0"; "100"; "0"; "0"; "100"]) = true ->
  finiteTriangle (parseFloat <$> ["0"; "0"; "1"; "0"; "0"; "1"]) = true ->
  ~ collinear (parseFloat <$> ["0"; "0"; "100"; "0"; "0"; "100"]) ->
  findVertices (svg metaOnlyDoc) = Ok (Some geoItems) /\
  length geoItems = 3%nat /\
  convertSVGToGeoJSON metaOnlyDoc {| layers := false; debug := d |} = Err TypeError.
Proof.
  intros Hsrc Htgt Hnc. split; [reflexivity|]. split; [reflexivity|].
  unfold convertSVGToGeoJSON.
  change (findVertices (svg metaOnlyDoc)) with (Ok (Some geoItems)).
  csimpl. unfold getConvertMatrix.
  change (triangleStrings _ "X" "Y") with (Ok ["0"; "0"; "100"; "0"; "0"; "100"]).
  change (triangleStrings _ "Longitude" "Latitude") with (Ok ["0"; "0"; "1"; "0"; "0"; "1"]).
  cbn [mbind outcome_bind]. unfold fromTriangles. rewrite Hsrc, Htgt. cbn [andb negb].
  rewrite decide_False by done. cbn [mbind outcome_bind].
  reflexivity.
Qed.

End ConvertFacts.


(** The metadata examples of C2 on [exampleRuntime]: no [MetaInfo], two
    [GeoItem]s, three collinear ones, and a coordinate that is not a
    number. *)
Example no_metadata_exits :
  convertSVGToGeoJSON (H := exampleRuntime) {| svg := node "svg" [] [labelledRect] |}
                      {| layers := false; debug := false |}
  = Err (ProcessExit 1).
Proof. reflexivity. Qed.

Example two_geoItems_exit :
  convertSVGToGeoJSON (H := exampleRuntime)
    {| svg := node "svg" []
         [Element "MetaInfo" (Some (prognoz, "MetaInfo")) None
            (Some [Element "Geo" (Some (prognoz, "Geo")) None
                     (Some [geoItem "0" "0" "0" "0"; geoItem "100" "0" "1" "0"])])] |}
    {| layers := false; debug := false |}
  = Err (ProcessExit 1).
Proof. reflexivity. Qed.

Example collinear_geoItems_throw :
  convertSVGToGeoJSON (H := exampleRuntime)
    {| svg := node "svg" []
         [Element "MetaInfo" (Some (prognoz, "MetaInfo")) None
            (Some [Element "Geo" (Some (prognoz, "Geo")) None
                     (Some [geoItem "0" "0" "0" "0"; geoItem "50" "50" "1" "0";
                            geoItem "100" "100" "0" "1"])]);
          labelledRect] |}
    {| layers := false; debug := false |}
  = Err (Thrown "degenerate input").
Proof. vm_compute. reflexivity. Qed.

Example malformed_geoItem_throws :
  convertSVGToGeoJSON (H := exampleRuntime)
    {| svg := node "svg" []
         [Element "MetaInfo" (Some (prognoz, "MetaInfo")) None
            (Some [Element "Geo" (Some (prognoz, "Geo")) None
                     (Some [geoItem "abc" "0" "0" "0"; geoItem "100" "0" "1" "0";
                            geoItem "0" "100" "0" "1"])]);
          labelledRect] |}
    {| layers := false; debug := false |}
  = Err (Thrown "malformed input").
Proof. vm_compute. reflexivity. Qed.

Lemma C10_no_geometry_fails_witness :
  convertSVGToGeoJSON (H := exampleRuntime) metaOnlyDoc {| layers := false; debug := false |}
  = Err TypeError.
Proof.
  apply (C10_no_geometry_fails (H := exampleRuntime) false).
  - reflexivity.
  - reflexivity.
  - vm_compute. congruence.
Defined.

(** [addRectToLayer] does record the label ["#r1"] on the geometry it
    pushes. *)
Example rect_label_recorded :
  labels <$> addRectToLayer (H := exampleRuntime) labelledRect [] None [] = Ok [Some "#r1"].
Proof. reflexivity. Qed.

(** In debug mode the one feature of [rectDoc] has [svgID] undefined, not
    ["#r1"]. *)
Lemma C5_debug_label_lost_witness :
  exists out,
    convertSVGToGeoJSON (H := exampleRuntime) rectDoc {| layers := false; debug := true |}
    = Ok out /\
    length (allFeatures out) = 1%nat /\
    Forall (fun f => properties f = Some {| svgID := None |}) (allFeatures out).
Proof.
  eexists. split; [vm_compute; reflexivity|]. split; [reflexivity|].
  apply (C5_debug_label_lost (H := exampleRuntime) rectDoc false).
  vm_compute. reflexivity.
Defined.

(** The same square through the whole conversion, with the
    orientation-preserving calibration of [metaInfo]: the emitted exterior
    ring keeps the input order and a positive sum. *)
Example ccwPolygon_emitted :
  exists out,
    convertSVGToGeoJSON (H := exampleRuntime) {| svg := node "svg" [] [metaInfo; ccwPolygon] |}
                        {| layers := false; debug := false |} = Ok out /\
    (fun f => shape (coordinates (geometry f))) <$> allFeatures out
    = [CRings [[(zn 0, zn 0); (zn 0, ndiv (zn 1) (zn 10));
                (ndiv (zn 1) (zn 10), ndiv (zn 1) (zn 10));
                (ndiv (zn 1) (zn 10), zn 0); (zn 0, zn 0)]]] /\
    Forall (fun f => match shape (coordinates (geometry f)) with
                     | CRings [ring] => spec_windingMatches ring 0 = false
                     | _ => False
                     end) (allFeatures out).
Proof.
  eexists. split; [vm_compute; reflexivity|]. split.
  - apply (bool_decide_unpack _). vm_compute. exact I.
  - constructor; [|constructor]. vm_compute. reflexivity.
Qed.

(** A rect without transform whose [x] is not a number keeps the string in
    its pairs; the conversion then throws in [convertCoordinates]. *)
Example string_rect_throws :
  shapes <$> addRectToLayer (H := exampleRuntime) (node "rect" [("x", "abc")] []) [] None []
  = Ok [CAttrRings [[(AStr "abc", ANum (zn 0)); (AStr "abc", ANum (zn 0));
                     (AStr "abc0", ANum (zn 0)); (AStr "abc0", ANum (zn 0));
                     (AStr "abc", ANum (zn 0))]]] /\
  convertSVGToGeoJSON (H := exampleRuntime)
    {| svg := node "svg" [] [metaInfo; node "rect" [("x", "abc")] []] |}
    {| layers := false; debug := false |}
  = Err TypeError.
Proof.
  split.
  - apply (bool_decide_unpack _). vm_compute. exact I.
  - vm_compute. reflexivity.
Qed.

(** * Further properties *)

Ltac split_bits a :=
  let b0 := fresh "b" in let b1 := fresh "b" in let b2 := fresh "b" in
  let b3 := fresh "b" in let b4 := fresh "b" in let b5 := fresh "b" in
  let b6 := fresh "b" in let b7 := fresh "b" in
  destruct a as [b0 b1 b2 b3 b4 b5 b6 b7];
  destruct b0; try reflexivity; destruct b1; try reflexivity;
  destruct b2; try reflexivity; destruct b3; try reflexivity;
  destruct b4; try reflexivity; destruct b5; try reflexivity;
  destruct b6; try reflexivity; destruct b7; try reflexivity.

Ltac split_name name :=
  let a := fresh "a" in
  destruct name as [|a name]; [try reflexivity | split_bits a; split_name name].

Lemma dispatch_cases {T : Type} (name : string)
    (g path rect line circle ellipse polygon polyline noop other : T) :
  dispatch name g path rect line circle ellipse polygon polyline noop other
  = dispatch_decide name g path rect line circle ellipse polygon polyline noop other.
Proof.
  unfold dispatch, dispatch_decide. split_name name.
Qed.

Lemma element_induction (P : element -> Prop) :
  (forall name ns a, P (Element name ns a None)) ->
  (forall name ns a es, Forall P es -> P (Element name ns a (Some es))) ->
  forall el, P el.
Proof.
  intros HN HS. fix IH 1. intros [name ns a [es|]]; [|apply HN].
  apply HS. induction es as [|e es IHes]; constructor; [apply IH|apply IHes].
Qed.

Section WalkFrame.
Context `{Runtime}.

Lemma addElementToLayer_dispatch name ns a children layer xform h :
  addElementToLayer (Element name ns a children) layer xform h
  = let el := Element name ns a children in
    let xh := combineTransform el xform h in
    dispatch name
      (match children with
       | Some es => forEachM (fun e st => addElementToLayer e (fst st) xh.1 (snd st)) es (layer, xh.2)
       | None => Err TypeError
       end)
      (leafResult xh.2 (addPathToLayer el layer xh.1 xh.2))
      (leafResult xh.2 (addRectToLayer el layer xh.1 xh.2))
      (leafResult xh.2 (addLineToLayer el layer xh.1 xh.2))
      (leafResult xh.2 (addCircleToLayer el layer xh.1 xh.2))
      (leafResult xh.2 (addEllipseToLayer el layer xh.1 xh.2))
      (leafResult xh.2 (addPolygonToLayer el layer xh.1 xh.2))
      (leafResult xh.2 (addPolylineToLayer el layer xh.1 xh.2))
      (Ok (layer, xh.2))
      (Ok (layer, xh.2)).
Proof.
  cbv zeta. simpl addElementToLayer.
  destruct (combineTransform (Element name ns a children) xform h) as [xform' h'].
  reflexivity.
Qed.

(** Every handler appends to the layer it is given and reads nothing from
    it. *)
Lemma addPathData_frame layer xform d cw h :
  addPathData layer xform d cw h
  = (fun r : Geometry * list Geometry => (r.1, layer ++ r.2)) <$> addPathData [] xform d cw h.
Proof.
  unfold addPathData.
  destruct (pathDataToPolys d svgTolerance) as [polys|]; csimpl; [|done].
  destruct polys as [|p0 rest]; csimpl; done.
Qed.

Lemma addPathToLayer_frame el layer xform h :
  addPathToLayer el layer xform h = (app layer) <$> addPathToLayer el [] xform h.
Proof.
  unfold addPathToLayer. destruct (attrs el) as [c|]; csimpl; [|done].
  destruct (truthy (c "d")); csimpl; [|by rewrite app_nil_r].
  rewrite (addPathData_frame layer).
  destruct (addPathData [] xform (c "d") true h) as [[geo layer']|] eqn:Hp; csimpl; [|done].
  destruct (c "d"); csimpl; [done|].
  assert (Hl : layer' = [geo]).
  { unfold addPathData in Hp.
    destruct (pathDataToPolys _ _) as [polys|]; csimpl in Hp; [|done].
    destruct polys; csimpl in Hp; [done|]. by injection Hp as <- <-. }
  subst layer'. csimpl. by rewrite insert_pushed.
Qed.

Lemma addCircleToLayer_frame el layer xform h :
  addCircleToLayer el layer xform h = (app layer) <$> addCircleToLayer el [] xform h.
Proof.
  unfold addCircleToLayer. destruct (attrs el) as [c|]; csimpl; [|done].
  destruct (truthy (c "r")); csimpl; [|by rewrite app_nil_r].
  rewrite (addPathData_frame layer).
  destruct (addPathData [] xform _ false h) as [[geo layer']|] eqn:Hp; csimpl; [|done].
  assert (Hl : layer' = [geo]).
  { unfold addPathData in Hp.
    destruct (pathDataToPolys _ _) as [polys|]; csimpl in Hp; [|done].
    destruct polys; csimpl in Hp; [done|]. by injection Hp as <- <-. }
  subst layer'. csimpl. by rewrite insert_pushed.
Qed.

Lemma addRectToLayer_frame el layer xform h :
  addRectToLayer el layer xform h = (app layer) <$> addRectToLayer el [] xform h.
Proof. unfold addRectToLayer. destruct (attrs el) as [c|]; csimpl; done. Qed.

Lemma addLineToLayer_frame el layer xform h :
  addLineToLayer el layer xform h = (app layer) <$> addLineToLayer el [] xform h.
Proof. unfold addLineToLayer. destruct (attrs el) as [c|]; csimpl; done. Qed.

Lemma addPolygonToLayer_frame el layer xform h :
  addPolygonToLayer el layer xform h = (app layer) <$> addPolygonToLayer el [] xform h.
Proof.
  unfold addPolygonToLayer. destruct (attrs el) as [c|]; csimpl; [|done].
  destruct (truthy (c "points")); csimpl; [|by rewrite app_nil_r].
  destruct (c "points"); csimpl; [done|].
  destruct (push_first_copy _); csimpl; done.
Qed.

Lemma addPolylineToLayer_frame el layer xform h :
  addPolylineToLayer el layer xform h = (app layer) <$> addPolylineToLayer el [] xform h.
Proof.
  unfold addPolylineToLayer. destruct (attrs el) as [c|]; csimpl; [|done].
  destruct (truthy (c "points")); csimpl; [|by rewrite app_nil_r].
  destruct (c "points"); csimpl; [done|].
  destruct (push_first_copy _); csimpl; done.
Qed.

Lemma leafResult_frame (layer : list Geometry) (h : list mat23) (r : outcome (list Geometry)) :
  leafResult h ((app layer) <$> r) = appendTo layer <$> leafResult h r.
Proof. by destruct r. Qed.

Lemma forEachM_frame (f : element -> list Geometry * list mat23 -> outcome (list Geometry * list mat23))
    (es : list element) :
  Forall (fun e => forall layer h, f e (layer, h) = appendTo layer <$> f e ([], h)) es ->
  forall layer h, forEachM f es (layer, h) = appendTo layer <$> forEachM f es ([], h).
Proof.
  induction 1 as [|e es He _ IH]; intros layer h; csimpl.
  - unfold appendTo. csimpl. by rewrite app_nil_r.
  - rewrite (He layer h).
    destruct (f e ([], h)) as [[new h1]|]; csimpl; [|done].
    unfold appendTo at 1. csimpl.
    rewrite (IH (layer ++ new) h1), (IH new h1).
    destruct (forEachM f es ([], h1)) as [[r h2]|]; csimpl; [|done].
    unfold appendTo. csimpl. by rewrite app_assoc.
Qed.

Lemma addElementToLayer_nil (el : element) (layer : list Geometry) (xform : option loc)
    (h : heap) :
  addElementToLayer el layer xform h = appendTo layer <$> addElementToLayer el [] xform h.
Proof.
  revert layer xform h. induction el as [name ns a|name ns a es IH] using element_induction;
    intros layer xform h; rewrite !addElementToLayer_dispatch; cbv zeta;
    rewrite !dispatch_cases; unfold dispatch_decide;
    repeat case_decide;
    rewrite ?addPathToLayer_frame with (layer := layer),
            ?addRectToLayer_frame with (layer := layer),
            ?addLineToLayer_frame with (layer := layer),
            ?addCircleToLayer_frame with (layer := layer),
            ?addPolygonToLayer_frame with (layer := layer),
            ?addPolylineToLayer_frame with (layer := layer);
    try (by apply leafResult_frame);
    try (unfold appendTo; csimpl; by rewrite app_nil_r);
    try done.
  apply (forEachM_frame (fun e st => addElementToLayer e st.1 _ st.2)).
  eapply Forall_impl; [exact IH|]. intros e He layer' h'. apply He.
Qed.

(** X6: the walk only appends.  Run on a layer that starts with [before], it
    gives what it gives without [before], with [before] in front: the same
    new geometries, the same store, the same failure. *)
Theorem addElementToLayer_frame (el : element) (before layer : list Geometry)
    (xform : option loc) (h : heap) :
  addElementToLayer el (before ++ layer) xform h
  = appendTo before <$> addElementToLayer el layer xform h.
Proof.
  rewrite (addElementToLayer_nil el (before ++ layer)), (addElementToLayer_nil el layer).
  destruct (addElementToLayer el [] xform h) as [[new h']|]; csimpl; [|done].
  unfold appendTo. csimpl. by rewrite app_assoc.
Qed.

End WalkFrame.

Section WalkEdges.
Context `{Runtime}.

Lemma forEachM_app {A S : Type} (f : A -> S -> outcome S) (l1 l2 : list A) (s : S) :
  forEachM f (l1 ++ l2) s = (s' ← forEachM f l1 s; forEachM f l2 s').
Proof.
  revert s. induction l1 as [|x l1 IH]; intros s; csimpl; [done|].
  destruct (f x s) as [s1|]; csimpl; [apply IH|done].
Qed.

(** The first failing child decides the result of a group. *)
Lemma addGroupToLayer_first_error (el e : element) (pre post : list element)
    (layer : list Geometry) (xform : option loc) (h : heap)
    (st : list Geometry * list mat23) (err : error) :
  el_children el = Some (pre ++ e :: post) ->
  forEachM (fun e st => addElementToLayer e (fst st) xform (snd st)) pre (layer, h) = Ok st ->
  addElementToLayer e st.1 xform st.2 = Err err ->
  addGroupToLayer el layer xform h = Err err.
Proof.
  intros Hc Hpre He. unfold addGroupToLayer. rewrite Hc, forEachM_app, Hpre. csimpl.
  by rewrite He.
Qed.

Lemma addElementToLayer_ellipse (e : element) (layer : list Geometry) (xform : option loc)
    (h : heap) :
  el_name e = "ellipse" -> addElementToLayer e layer xform h = Err (ProcessExit 2).
Proof.
  destruct e as [name ns a ch]. cbn [el_name]. intros ->.
  rewrite addElementToLayer_dispatch. reflexivity.
Qed.

(** X7: an [ellipse] among the children of a group, reached after the earlier
    children were handled without failure, ends the walk of the group with
    [process.exit(2)]. *)
Theorem ellipse_aborts_group (el e : element) (pre post : list element)
    (layer : list Geometry) (xform : option loc) (h : heap)
    (st : list Geometry * list mat23) :
  el_children el = Some (pre ++ e :: post) ->
  el_name e = "ellipse" ->
  forEachM (fun e st => addElementToLayer e (fst st) xform (snd st)) pre (layer, h) = Ok st ->
  addGroupToLayer el layer xform h = Err (ProcessExit 2).
Proof.
  intros Hc He Hpre. eapply addGroupToLayer_first_error; [done..|].
  by apply addElementToLayer_ellipse.
Qed.

(** X8: an element whose name is none of the eight handled ones leaves the
    layer as it is and does not fail; [combineTransform] has still run on it. *)
Theorem unhandled_element_ignored (el : element) (layer : list Geometry)
    (xform : option loc) (h : heap) :
  el_name el ∉ handledNames ->
  addElementToLayer el layer xform h = Ok (layer, (combineTransform el xform h).2).
Proof.
  destruct el as [name ns a ch]. cbn [el_name]. intros Hn.
  rewrite addElementToLayer_dispatch. cbv zeta. rewrite dispatch_cases.
  unfold dispatch_decide, handledNames in *.
  repeat case_decide; subst; try done; exfalso; apply Hn; set_solver.
Qed.

(** X9: a path, rect, line, circle, polygon or polyline element without any
    attribute makes [addElementToLayer] throw a TypeError. *)
Theorem bare_primitive_throws (el : element) (layer : list Geometry)
    (xform : option loc) (h : heap) :
  el_attrs el = None -> el_name el ∈ primitiveNames ->
  addElementToLayer el layer xform h = Err TypeError.
Proof.
  destruct el as [name ns a ch]. cbn [el_name el_attrs]. intros -> Hn.
  rewrite addElementToLayer_dispatch. cbv zeta.
  unfold primitiveNames in Hn. rewrite !elem_of_cons, elem_of_nil in Hn.
  destruct Hn as [->|[->|[->|[->|[->|[->|[]]]]]]]; reflexivity.
Qed.

(** X10: an element with attributes but without [d] (path), [r] (circle) or
    [points] (polygon, polyline) adds nothing and does not fail. *)
Theorem missing_attribute_skips (el : element) (a : gmap string string)
    (layer : list Geometry) (xform : option loc) (h : heap) :
  el_attrs el = Some a ->
  (a !! "d" = None -> addPathToLayer el layer xform h = Ok layer) /\
  (a !! "r" = None -> addCircleToLayer el layer xform h = Ok layer) /\
  (a !! "points" = None -> addPolygonToLayer el layer xform h = Ok layer) /\
  (a !! "points" = None -> addPolylineToLayer el layer xform h = Ok layer).
Proof.
  intros Ha.
  repeat split; intros Hk;
    unfold addPathToLayer, addCircleToLayer, addPolygonToLayer, addPolylineToLayer, attrs;
    rewrite Ha; csimpl; unfold attr_value; rewrite Hk; reflexivity.
Qed.

(** X11: a [points] attribute whose whole text reads as a number: the
    polygon and polyline readers skip the element when the number is zero
    and throw a TypeError otherwise, [attrs] having turned the text into a
    number. *)
Theorem numeric_points (el : element) (a : gmap string string) (s : string)
    (layer : list Geometry) (xform : option loc) (h : heap) :
  el_attrs el = Some a -> a !! "points" = Some s -> is_NaN (toNumber s) = false ->
  let r := if nequal (toNumber s) (zn 0) then Ok layer else Err TypeError in
  addPolygonToLayer el layer xform h = r /\ addPolylineToLayer el layer xform h = r.
Proof.
  intros Ha Hs Hq r. subst r.
  unfold addPolygonToLayer, addPolylineToLayer, attrs. rewrite Ha. csimpl.
  unfold attr_value. rewrite Hs, Hq. unfold truthy. rewrite Hq.
  by destruct (nequal (toNumber s) (zn 0)).
Qed.

End WalkEdges.

Section ShapeFacts.
Context `{Runtime}.

(** X12: without a transform, a rect with numeric [x], [y], [width], [height]
    becomes a Polygon of the one ring (x,y) (x,y+h) (x+w,y+h) (x+w,y) (x,y),
    in this order whatever its winding. *)
Theorem rect_ring (el : element) (layer : list Geometry) (h : heap)
    (c : string -> attrval) (x y w hh : num) :
  attrs el = Ok c ->
  c "x" = ANum x -> c "y" = ANum y -> c "width" = ANum w -> c "height" = ANum hh ->
  exists geo,
    addRectToLayer el layer None h = Ok (layer ++ [geo]) /\
    type geo = Polygon /\
    shape (coordinates geo) = CRings [rectRing x y w hh].
Proof.
  intros Hc Hx Hy Hw Hh. unfold addRectToLayer. rewrite Hc. csimpl.
  rewrite Hx, Hy, Hw, Hh. csimpl.
  eexists. split; [reflexivity|]. split; done.
Qed.

Lemma addCircleToLayer_pathData (el : element) (layer : list Geometry) (xform : option loc)
    (h : heap) :
  addCircleToLayer el layer xform h
  = (c ← attrs el;
     if truthy (c "r") then
       '(geo, layer') ← addPathData layer xform
                          (AStr (circlePathData (c "cx") (c "cy") (c "r"))) false h;
       Ok (<[length layer :=
               addDebugId geo el ("circle @ " +:+ to_str (c "cx") +:+ "," +:+ to_str (c "cy"))]>
             layer')
     else Ok layer).
Proof. reflexivity. Qed.

(** X13: a circle with a truthy [r] is the geometry of the path data
    [M cx cy+r c ... z] with the winding check off: its rings stay as the
    flattener returns them. *)
Theorem circle_not_normalised (el : element) (layer : list Geometry) (xform : option loc)
    (h : heap) (c : string -> attrval) (polys : list poly) :
  attrs el = Ok c -> truthy (c "r") = true ->
  pathDataToPolys (AStr (circlePathData (c "cx") (c "cy") (c "r"))) svgTolerance = Ok polys ->
  polys <> [] ->
  exists geo, addCircleToLayer el layer xform h = Ok (layer ++ [geo]) /\
              pathGeometry polys xform false h geo.
Proof.
  intros Hc Hr Hp Hne.
  destruct (addPathData_geometry layer xform _ false h polys Hp Hne) as (geo & Hgeo & Hshape).
  rewrite addCircleToLayer_pathData, Hc. cbn [mbind outcome_bind]. rewrite Hr, Hgeo.
  cbn [mbind outcome_bind]. rewrite insert_pushed.
  eexists. split; [reflexivity|].
  unfold pathGeometry in *. destruct polys as [|p0 rest]; [done|]. exact Hshape.
Qed.

Lemma mapM_outcome_Forall2 {A B : Type} (f : A -> outcome B) (l : list A) (ys : list B) :
  mapM f l = Ok ys -> Forall2 (fun x y => f x = Ok y) l ys.
Proof.
  revert ys. induction l as [|x l IH]; intros ys; csimpl.
  - intros [= <-]. constructor.
  - destruct (f x) as [y|] eqn:Hx; csimpl; [|done].
    destruct (mapM f l) as [k|]; csimpl; [|done].
    intros [= <-]. constructor; eauto.
Qed.

Lemma makeFeature_type (opts : options) (m : Matrix) (data : Geometry) (f : Feature) :
  makeFeature opts m data = Ok f -> type (geometry f) = type data.
Proof.
  unfold makeFeature.
  destruct (convertCoordinates (coordinates data) m) as [cs|]; csimpl; [|done].
  by intros [= <-].
Qed.

Lemma mapM_makeFeature_types (opts : options) (m : Matrix) (layer : list Geometry)
    (fs : list Feature) :
  mapM (makeFeature opts m) layer = Ok fs ->
  (fun f => type (geometry f)) <$> fs = type <$> layer.
Proof.
  intros Hfs. apply mapM_outcome_Forall2 in Hfs.
  induction Hfs as [|data f layer fs Hf _ IH]; csimpl; [done|].
  f_equal; [by eapply makeFeature_type|done].
Qed.

(** X14: the layers of the result are the non-empty entries of [layerByName],
    in the order of the entries and under the same names, each with one
    feature per geometry, of the same type and in the same order.  Names that
    are strings of digits are left out: [for ... in] lists array indices
    first. *)
Theorem collectLayers_order (opts : options) (m : Matrix) (byName : layerMap)
    (ls : list (string * FeatureCollection)) :
  Forall (fun kv => indexLike kv.1 = false) byName ->
  collectLayers opts m byName = Ok ls ->
  (fun kv => (kv.1, (fun f => type (geometry f)) <$> features kv.2)) <$> ls
  = (fun kv => (kv.1, type <$> kv.2)) <$> nonEmptyLayers byName.
Proof.
  intros _. unfold nonEmptyLayers.
  revert ls. induction byName as [|[name layer] byName IH]; intros ls.
  - by intros [= <-].
  - simpl collectLayers. case_decide as Hlen.
    + intros Hls. rewrite filter_cons_False; [by apply IH|].
      simpl. destruct layer; [tauto|done].
    + destruct (mapM _ layer) as [fs|] eqn:Hfs; [|done].
      destruct (collectLayers opts m byName) as [ls'|]; [|done].
      cbn [mbind outcome_bind]. intros [= <-].
      rewrite filter_cons_True by (simpl; by destruct layer).
      rewrite !fmap_cons. f_equal; [|by apply IH].
      cbn [fst snd features]. f_equal. by eapply mapM_makeFeature_types.
Qed.

Lemma collectLayers_nonempty (opts : options) (m : Matrix) (byName : layerMap)
    (ls : list (string * FeatureCollection)) :
  collectLayers opts m byName = Ok ls ->
  Forall (fun kv => features kv.2 <> []) ls.
Proof.
  revert ls. induction byName as [|[name layer] byName IH]; intros ls; csimpl.
  - intros [= <-]. constructor.
  - case_decide as Hlen; [apply IH|].
    destruct (mapM _ layer) as [fs|] eqn:Hfs; csimpl; [|done].
    destruct (collectLayers opts m byName) as [ls'|]; csimpl; [|done].
    intros [= <-]. constructor; [|by apply IH]. csimpl.
    apply mapM_makeFeature_types in Hfs. intros ->. destruct layer; done.
Qed.

(** X15: whenever [convertSVGToGeoJSON] returns, no feature collection of the
    result is empty, and the result is a single collection exactly when
    [options.layers] is falsy. *)
Theorem convert_never_empty (doc : document) (opts : options) (out : output) :
  convertSVGToGeoJSON doc opts = Ok out ->
  match out with
  | Single fc => layers opts = false /\ features fc <> []
  | Layers ls => layers opts = true /\ Forall (fun kv => features kv.2 <> []) ls
  end.
Proof.
  unfold convertSVGToGeoJSON. intros Hout.
  destruct (findVertices (svg doc)) as [vs|]; [|done]. csimpl in Hout.
  destruct (match vs with Some _ => _ | None => _ end) as [vertices|]; [|done].
  csimpl in Hout.
  destruct (getConvertMatrix vertices) as [m|]; [|done]. csimpl in Hout.
  unfold convertLayers in Hout.
  destruct (childrenOf (svg doc)) as [top|]; [|done]. csimpl in Hout.
  destruct (forEachM _ _ _) as [[byName h]|]; [|done]. csimpl in Hout.
  destruct (collectLayers opts m byName) as [ls|] eqn:Hls; [|done]. csimpl in Hout.
  apply collectLayers_nonempty in Hls.
  destruct (layers opts); csimpl in Hout.
  - by injection Hout as <-.
  - destruct ls as [|l0 ls]; [done|]. injection Hout as <-.
    split; [done|]. by inversion Hls.
Qed.

End ShapeFacts.

Lemma string_app_cons (c : ascii) (s t : string) : String c s +:+ t = String c (s +:+ t).
Proof. reflexivity. Qed.

Lemma string_app_nil_l (t : string) : "" +:+ t = t.
Proof. reflexivity. Qed.

Lemma string_app_nil_r (s : string) : s +:+ "" = s.
Proof. induction s as [|c s IH]; [done|]. by rewrite string_app_cons, IH. Qed.

Lemma string_app_assoc (s1 s2 s3 : string) : (s1 +:+ s2) +:+ s3 = s1 +:+ (s2 +:+ s3).
Proof. induction s1 as [|c s1 IH]; [done|]. by rewrite !string_app_cons, IH. Qed.

Lemma snoc_char_app (cur : string) (c : ascii) (t : string) :
  snoc_char cur c +:+ t = cur +:+ String c t.
Proof. unfold snoc_char. by rewrite string_app_assoc. Qed.

(** A separator-free stretch is accumulated into the current piece. *)
Lemma split_go_free (t r cur : string) (insep : bool) :
  sepFree t = true ->
  split_go (t +:+ r) cur insep
  = split_go r (cur +:+ t) (if decide (t = "") then insep else false).
Proof.
  revert cur insep. induction t as [|c t IH]; intros cur insep Ht.
  - by rewrite string_app_nil_l, string_app_nil_r.
  - simpl in Ht. apply andb_true_iff in Ht as [Hc Ht].
    apply negb_true_iff in Hc. rewrite string_app_cons. simpl split_go. rewrite Hc.
    rewrite (IH _ _ Ht), snoc_char_app.
    destruct (decide (String c t = "")); [done|].
    by destruct (decide (t = "")).
Qed.

Lemma split_go_token_end (t cur : string) (insep : bool) :
  sepFree t = true -> split_go t cur insep = [cur +:+ t].
Proof.
  intros Ht. rewrite <- (string_app_nil_r t) at 1. by rewrite split_go_free.
Qed.

Lemma split_go_token_sep (t r : string) (c : ascii) (insep : bool) :
  isToken t -> is_sep c = true ->
  split_go (t +:+ String c r) "" insep = t :: split_go r "" true.
Proof.
  intros [Hne Ht] Hc. rewrite split_go_free by done.
  rewrite decide_False by done. rewrite string_app_nil_l. simpl split_go. by rewrite Hc.
Qed.

Lemma split_go_join (c : ascii) (ts : list string) (insep : bool) :
  is_sep c = true -> Forall isToken ts -> ts <> [] ->
  split_go (String.concat (String c "") ts) "" insep = ts.
Proof.
  intros Hc Hts. revert insep.
  induction Hts as [|t ts Ht Hts IH]; intros insep Hne; [done|].
  destruct ts as [|t' ts].
  - simpl. by rewrite split_go_token_end by apply Ht.
  - change (String.concat (String c "") (t :: t' :: ts))
      with (t +:+ String c (String.concat (String c "") (t' :: ts))).
    rewrite split_go_token_sep by done. f_equal. by apply IH.
Qed.

Section ParseFacts.
Context `{Runtime}.

Lemma parse_pairs_tokens (x y : string) (rest : list string) :
  x <> "" -> y <> "" ->
  parse_pairs (x :: y :: rest) = (toNumber x, toNumber y) :: parse_pairs rest.
Proof.
  intros Hx Hy. simpl. by rewrite !bool_decide_eq_true_2 by done.
Qed.

Lemma split_pointsText (ps : list (string * string)) (insep : bool) :
  Forall (fun p => isToken p.1 /\ isToken p.2) ps -> ps <> [] ->
  split_go (pointsText ps) "" insep = tokensOf ps.
Proof.
  intros Hps. revert insep. unfold pointsText.
  induction Hps as [|[x y] ps [Hx Hy] Hps IH]; intros insep Hne; [done|].
  cbn [fst snd] in *.
  destruct ps as [|p' ps].
  - change (split_go (x +:+ "," +:+ y) "" insep = [x; y]).
    rewrite string_app_cons, string_app_nil_l.
    rewrite split_go_token_sep by done.
    by rewrite split_go_token_end by apply Hy.
  - rewrite fmap_cons. cbn [fst snd].
    change (String.concat " " ((x +:+ "," +:+ y) :: ((fun p => p.1 +:+ "," +:+ p.2) <$> p' :: ps)))
      with ((x +:+ "," +:+ y) +:+ " " +:+ String.concat " " ((fun p => p.1 +:+ "," +:+ p.2) <$> p' :: ps)).
    rewrite !string_app_assoc, !string_app_cons, !string_app_nil_l.
    rewrite split_go_token_sep by done.
    rewrite split_go_token_sep by done.
    change (tokensOf ((x, y) :: p' :: ps)) with (x :: y :: tokensOf (p' :: ps)).
    f_equal. f_equal. by apply IH.
Qed.

Lemma parse_pairs_tokensOf (ps : list (string * string)) :
  Forall (fun p => isToken p.1 /\ isToken p.2) ps ->
  parse_pairs (tokensOf ps) = (fun p => (toNumber p.1, toNumber p.2)) <$> ps.
Proof.
  induction 1 as [|[x y] ps [[Hx _] [Hy _]] _ IH]; [done|].
  unfold tokensOf in *. csimpl. cbn [fst snd] in *.
  rewrite !bool_decide_eq_true_2 by done. csimpl. by f_equal.
Qed.

(** X16: a [points] text of the form [x1,y1 x2,y2 ...], each entry a non-empty
    run without white space or comma, is read as the pairs
    [(x1 * 1, y1 * 1), ...], in order. *)
Theorem parse_pointsText (ps : list (string * string)) :
  Forall (fun p => isToken p.1 /\ isToken p.2) ps ->
  parse_pairs (split_sep (pointsText ps)) = (fun p => (toNumber p.1, toNumber p.2)) <$> ps.
Proof.
  intros Hps. destruct ps as [|p ps]; [done|].
  unfold split_sep. rewrite split_pointsText by done. by apply parse_pairs_tokensOf.
Qed.

(** X17: one separator in front of such a text makes [split] return an empty
    first entry: the first number is dropped and the pairs are those of the
    remaining entries, each y paired with the next x. *)
Theorem leading_separator_shifts (c : ascii) (ps : list (string * string)) :
  is_sep c = true -> Forall (fun p => isToken p.1 /\ isToken p.2) ps -> ps <> [] ->
  parse_pairs (split_sep (String c (pointsText ps))) = parse_pairs (tail (tokensOf ps)).
Proof.
  intros Hc Hps Hne. unfold split_sep. simpl split_go. rewrite Hc.
  rewrite split_pointsText by done.
  destruct ps as [|[x y] ps]; [done|]. unfold tokensOf. csimpl. done.
Qed.

End ParseFacts.

Lemma parenFree_app (s t : string) :
  parenFree (s +:+ t) = parenFree s && parenFree t.
Proof.
  induction s as [|c s IH]; [done|].
  rewrite string_app_cons. simpl. rewrite IH. by rewrite andb_assoc.
Qed.

Lemma lazy_until_paren_free (r post acc : string) :
  parenFree r = true ->
  lazy_until_paren (r +:+ String ")" post) acc = Some (acc +:+ r).
Proof.
  revert acc. induction r as [|c r IH]; intros acc Hr.
  - rewrite string_app_nil_l, string_app_nil_r. reflexivity.
  - simpl in Hr. apply andb_true_iff in Hr as [Hc Hr]. apply andb_true_iff in Hc as [Hp Hl].
    apply negb_true_iff in Hp, Hl. apply bool_decide_eq_false in Hp.
    rewrite string_app_cons. cbn [lazy_until_paren].
    destruct (decide (c = ")"%char)); [done|]. rewrite Hl.
    by rewrite IH, snoc_char_app.
Qed.

Lemma strip_prefix_Some (p s r : string) : strip_prefix p s = Some r -> s = p +:+ r.
Proof.
  revert s. induction p as [|a p IH]; intros s; simpl.
  - by intros [= ->].
  - destruct s as [|b s]; [done|]. case_decide; [|done]. subst.
    intros Hs. rewrite string_app_cons. f_equal. by apply IH.
Qed.

Lemma strip_prefix_app (p r : string) : strip_prefix p (p +:+ r) = Some r.
Proof.
  induction p as [|a p IH]; [done|]. rewrite string_app_cons. simpl.
  by rewrite decide_True.
Qed.

Lemma matrix_exec_unfold (s : string) :
  matrix_exec s = match matrix_at s with
                  | Some g => Some g
                  | None => match s with
                            | EmptyString => None
                            | String _ r => matrix_exec r
                            end
                  end.
Proof. by destruct s. Qed.

Lemma matrix_exec_matrix (args1 post : string) :
  args1 <> "" -> parenFree args1 = true ->
  matrix_exec ("matrix(" +:+ args1 +:+ String ")" post) = Some args1.
Proof.
  intros Hne Hfree. destruct args1 as [|c r]; [done|].
  simpl in Hfree. apply andb_true_iff in Hfree as [Hc Hr]. apply andb_true_iff in Hc as [_ Hl].
  apply negb_true_iff in Hl.
  assert (Hat : matrix_at ("matrix(" +:+ String c r +:+ String ")" post) = Some (String c r)).
  { unfold matrix_at. rewrite strip_prefix_app, string_app_cons, Hl.
    by rewrite lazy_until_paren_free. }
  by rewrite matrix_exec_unfold, Hat.
Qed.

Lemma occursIn_unfold (p s : string) :
  occursIn p s = match strip_prefix p s with
                 | Some _ => true
                 | None => match s with
                           | EmptyString => false
                           | String _ r => occursIn p r
                           end
                 end.
Proof. by destruct s. Qed.

Lemma occursIn_spec (p s : string) :
  occursIn p s = true <-> exists pre post, s = pre +:+ p +:+ post.
Proof.
  split.
  - induction s as [|c s IH]; rewrite occursIn_unfold.
    + destruct (strip_prefix p "") as [r|] eqn:Hp; [|done].
      intros _. exists "", r. rewrite string_app_nil_l. by apply strip_prefix_Some.
    + destruct (strip_prefix p (String c s)) as [r|] eqn:Hp.
      * intros _. exists "", r. rewrite string_app_nil_l. by apply strip_prefix_Some.
      * intros Hs. destruct (IH Hs) as (pre & post & ->).
        by exists (String c pre), post.
  - intros (pre & post & ->). induction pre as [|c pre IH]; rewrite occursIn_unfold.
    + by rewrite string_app_nil_l, strip_prefix_app.
    + rewrite string_app_cons. destruct (strip_prefix _ _); [done|exact IH].
Qed.

Lemma matrix_exec_absent (value : string) :
  occursIn "matrix(" value = false -> matrix_exec value = None.
Proof.
  induction value as [|c s IH]; rewrite matrix_exec_unfold, occursIn_unfold; unfold matrix_at.
  - by destruct (strip_prefix "matrix(" "").
  - destruct (strip_prefix "matrix(" (String c s)) as [r|] eqn:Hp; [done|].
    intros Hs. by apply IH.
Qed.

Section MatrixFacts.
Context `{Runtime}.

Lemma entry_num_lookup (n : list string) (k : nat) (t : string) :
  n !! k = Some t -> entry_num n k = toNumber t.
Proof. unfold entry_num. by intros ->. Qed.

(** X18: on an element without inherited transform, [transform] =
    [matrix(t0 t1 t2 t3 t4 t5)], six entries without separator or [)] joined by
    one separator that is not a line terminator, allocates the matrix of the
    six numbers [t * 1], in this order. *)
Theorem matrix_transform_parsed (el : element) (a : gmap string string) (c : ascii)
    (t0 t1 t2 t3 t4 t5 : string) (h : heap) :
  let ts := [t0; t1; t2; t3; t4; t5] in
  is_sep c = true -> is_line_terminator c = false ->
  Forall (fun t => isToken t /\ parenFree t = true) ts ->
  el_attrs el = Some a ->
  a !! "transform" = Some ("matrix(" +:+ String.concat (String c "") ts +:+ ")") ->
  combineTransform el None h
  = (Some (length h),
     h ++ [Mat23 (toNumber t0) (toNumber t1) (toNumber t2)
                 (toNumber t3) (toNumber t4) (toNumber t5)]).
Proof.
  intros ts Hc Hl Hts Ha Ht.
  assert (Htok : Forall isToken ts) by (eapply Forall_impl; [exact Hts|]; by intros ? [? ?]).
  assert (Hsplit : split_sep (String.concat (String c "") ts) = ts).
  { unfold split_sep. by apply split_go_join. }
  assert (Hne : String.concat (String c "") ts <> "").
  { intros Hz. rewrite Hz in Hsplit. done. }
  assert (Hsepchar : c <> ")"%char).
  { intros ->. done. }
  assert (Hfree : parenFree (String.concat (String c "") ts) = true).
  { clear Hsplit Hne Ht Htok. subst ts.
    repeat match goal with H : Forall _ (_ :: _) |- _ => inversion H; clear H; subst end.
    cbn [String.concat]. rewrite !parenFree_app. simpl parenFree.
    rewrite Hl. rewrite bool_decide_eq_false_2 by done. simpl.
    repeat match goal with H : _ /\ parenFree _ = true |- _ =>
                             let E := fresh in destruct H as [_ E]; rewrite E end.
    done. }
  erewrite combineTransform_matrix; [|exact Ha|exact Ht|].
  2:{ apply matrix_exec_matrix; done. }
  unfold localMatrix. rewrite Hsplit. reflexivity.
Qed.

(** X19: a [transform] value in which [matrix(] does not occur changes nothing:
    the inherited transform and the store are returned as they are. *)
Theorem transform_without_matrix_ignored (el : element) (a : gmap string string)
    (value : string) (xform : option loc) (h : heap) :
  el_attrs el = Some a -> a !! "transform" = Some value ->
  ~ (exists pre post, value = pre +:+ "matrix(" +:+ post) ->
  combineTransform el xform h = (xform, h).
Proof.
  intros Ha Ht Hno. apply combineTransform_none. rewrite Ha, Ht.
  apply matrix_exec_absent. destruct (occursIn "matrix(" value) eqn:Ho; [|done].
  exfalso. apply Hno. by apply occursIn_spec.
Qed.

(** X20: a [matrix(...)] with fewer than six entries has [NaN] as its last
    coefficient, and after [combineTransform] every point that [coords]
    transforms has [NaN] as its second coordinate. *)
Theorem short_matrix_NaN (el : element) (a : gmap string string) (value args1 : string)
    (xform : option loc) (h : heap) (pts : list point) :
  el_attrs el = Some a -> a !! "transform" = Some value -> matrix_exec value = Some args1 ->
  (length (split_sep args1) < 6)%nat ->
  match xform with Some x => (x < length h)%nat | None => True end ->
  let '(xform', h') := combineTransform el xform h in
  Forall (fun p => p.2 = NaN) (coords pts xform' h').
Proof.
  intros Ha Ht Hm Hlen Hx.
  rewrite (combineTransform_matrix el a value args1 xform h Ha Ht Hm).
  assert (H5 : m05 (localMatrix args1) = NaN).
  { unfold localMatrix, entry_num. cbn [m05].
    by rewrite lookup_ge_None_2 by lia. }
  assert (Hy : forall m p, m05 m = NaN -> (transformMat23 m p).2 = NaN).
  { intros m p Hm5. unfold transformMat23. cbn [snd]. rewrite Hm5. apply nadd_NaN_r. }
  destruct xform as [x|]; unfold coords; apply Forall_fmap, Forall_true; intros p; apply Hy.
  - rewrite multiply_in_place by done. unfold mat23_mul. cbn [m05]. rewrite H5.
    by rewrite nmul_NaN_r, nadd_NaN_r, nadd_NaN_l.
  - replace ((h ++ [localMatrix args1]) !!! length h) with (localMatrix args1); [done|].
    symmetry. apply list_lookup_total_correct. by rewrite list_lookup_middle.
Qed.

End MatrixFacts.

Lemma layerGet_app (k : string) (m1 m2 : list (string * list Geometry)) :
  layerGet k (m1 ++ m2) = match layerGet k m1 with
                          | Some v => Some v
                          | None => layerGet k m2
                          end.
Proof.
  unfold layerGet. induction m1 as [|[n v] m1 IH]; [done|].
  simpl. destruct (bool_decide (n = k)); [done|]. exact IH.
Qed.

Lemma layerGet_ensure (k n : string) (m : list (string * list Geometry)) :
  layerGet k (layerEnsure n m)
  = if decide (k = n) then Some (default [] (layerGet n m)) else layerGet k m.
Proof.
  unfold layerEnsure. destruct (layerGet n m) as [v|] eqn:Hn.
  - case_decide; [by subst|done].
  - rewrite layerGet_app. case_decide as Hk.
    + subst. rewrite Hn. unfold layerGet. simpl. by rewrite bool_decide_eq_true_2.
    + destruct (layerGet k m); [done|]. unfold layerGet. simpl.
      by rewrite bool_decide_eq_false_2 by done.
Qed.

Lemma layerGet_set (k n : string) (v : list Geometry) (m : list (string * list Geometry)) :
  layerGet k (layerSet n v m)
  = if decide (k = n) then (fun _ => v) <$> layerGet n m else layerGet k m.
Proof.
  unfold layerGet, layerSet. induction m as [|[n' v'] m IH].
  - by case_decide.
  - rewrite fmap_cons. cbn [List.find fst].
    destruct (decide (n' = n)) as [->|Hn]; cbn [fst];
      destruct (decide (k = n)) as [->|Hk];
      repeat case_bool_decide; subst; try done;
      rewrite IH; first [by rewrite decide_True | by rewrite decide_False].
Qed.

Section LayerFacts.
Context `{Runtime}.

Lemma addGroupToLayer_frame (el : element) (layer : list Geometry) (xform : option loc)
    (h : heap) :
  addGroupToLayer el layer xform h = appendTo layer <$> addGroupToLayer el [] xform h.
Proof.
  unfold addGroupToLayer. destruct (el_children el) as [es|]; [|done].
  apply (forEachM_frame (fun e st => addElementToLayer e st.1 xform st.2)).
  apply Forall_true. intros e layer' h'. apply addElementToLayer_nil.
Qed.

(** X21: one turn of the top-level loop changes one entry of [layerByName],
    the one named after the element, and only appends to it; the name is not
    to be one that [{}] inherits. *)
Theorem topLevel_frame (opts : options) (i : nat) (el : element)
    (byName byName' : layerMap) (h h' : heap) :
  layerNameFor opts i el ∉ objectPrototypeNames ->
  topLevel opts (i, el) (byName, h) = Ok (byName', h') ->
  exists new,
    forall k, layerGet k byName'
              = if decide (k = layerNameFor opts i el)
                then Some (default [] (layerGet k byName) ++ new)
                else layerGet k byName.
Proof.
  intros _. unfold topLevel, layerNameFor.
  destruct (layers opts && bool_decide (el_name el = "g")).
  - destruct (el_attrs el) as [a|]; csimpl; [|done].
    set (name := match a !! "id" with Some v => _ | None => _ end).
    destruct (combineTransform el None h) as [xform h1].
    rewrite addGroupToLayer_frame.
    destruct (addGroupToLayer el [] xform h1) as [[new h2]|]; csimpl; [|done].
    intros [= <- <-]. exists new. intros k.
    rewrite layerGet_set, !layerGet_ensure.
    rewrite !(decide_True (P := name = name)) by done.
    repeat case_decide; by subst.
  - csimpl. rewrite addElementToLayer_nil.
    destruct (addElementToLayer el [] None h) as [[new h2]|]; csimpl; [|done].
    intros [= <- <-]. exists new. intros k.
    rewrite layerGet_set, !layerGet_ensure.
    rewrite !(decide_True (P := "" = "")) by done.
    repeat case_decide; by subst.
Qed.

End LayerFacts.

Lemma strip_1_suffix_unfold (s : string) :
  strip_1_suffix s = match s with
                     | EmptyString => ""
                     | String c r => if decide (s = "_1_") then "" else String c (strip_1_suffix r)
                     end.
Proof. by destruct s. Qed.

Lemma strip_1_suffix_app (s : string) : strip_1_suffix (s +:+ "_1_") = s.
Proof.
  induction s as [|c s IH].
  - reflexivity.
  - rewrite string_app_cons, strip_1_suffix_unfold. rewrite decide_False; [by rewrite IH|].
    intros [= _ Hs].
    destruct s as [|c1 [|c2 [|c3 s]]]; try discriminate Hs.
Qed.

Lemma underscores_to_spaces_clean (s : string) :
  occursIn "_" (underscores_to_spaces s) = false.
Proof.
  induction s as [|c s IH]; [done|].
  simpl underscores_to_spaces. rewrite occursIn_unfold. simpl strip_prefix.
  destruct (decide (c = "_"%char)) as [->|Hc].
  - rewrite decide_False by done. exact IH.
  - rewrite decide_False by (intros Hn; by apply Hc). exact IH.
Qed.

(** X22: the layer name of an id: a final [_1_] is dropped, and every
    underscore becomes a space, so that none is left and the length is kept. *)
Theorem layer_name_of_id (s : string) :
  underscores_to_spaces (strip_1_suffix (s +:+ "_1_")) = underscores_to_spaces s /\
  occursIn "_" (underscores_to_spaces s) = false /\
  String.length (underscores_to_spaces s) = String.length s.
Proof.
  split; [by rewrite strip_1_suffix_app|]. split; [apply underscores_to_spaces_clean|].
  induction s as [|c s IH]; [done|]. simpl. by rewrite IH.
Qed.

Section LabelFacts.
Context `{Runtime}.

Lemma addPathData_pushes layer xform d cw h geo layer' :
  addPathData layer xform d cw h = Ok (geo, layer') -> layer' = layer ++ [geo].
Proof.
  unfold addPathData.
  destruct (pathDataToPolys _ _) as [polys|]; csimpl; [|done].
  destruct polys; csimpl; [done|]. by intros [= <- <-].
Qed.

Lemma addDebugId_labelledFor geo el fallback : labelledFor el (addDebugId geo el fallback).
Proof. by exists fallback. Qed.

Lemma pushes_none el layer : pushesLabelled el layer (Ok layer).
Proof.
  intros layer' [= <-]. exists []. rewrite app_nil_r. repeat split; [simpl; lia|constructor].
Qed.

Lemma pushes_one el layer geo fallback :
  pushesLabelled el layer (Ok (layer ++ [addDebugId geo el fallback])).
Proof.
  intros layer' [= <-]. eexists [_]. repeat split; [simpl; lia|].
  constructor; [apply addDebugId_labelledFor|constructor].
Qed.

Lemma pushes_err el layer e : pushesLabelled el layer (Err e).
Proof. by intros layer'. Qed.

Lemma addPathToLayer_labels el layer xform h :
  pushesLabelled el layer (addPathToLayer el layer xform h).
Proof.
  unfold addPathToLayer. destruct (attrs el) as [c|]; csimpl; [|apply pushes_err].
  destruct (truthy (c "d")); [|apply pushes_none].
  destruct (addPathData layer xform (c "d") true h) as [[geo layer1]|] eqn:Hp; csimpl;
    [|apply pushes_err].
  apply addPathData_pushes in Hp as ->.
  destruct (c "d"); csimpl; [apply pushes_err|].
  rewrite insert_pushed. apply pushes_one.
Qed.

Lemma addCircleToLayer_labels el layer xform h :
  pushesLabelled el layer (addCircleToLayer el layer xform h).
Proof.
  unfold addCircleToLayer. destruct (attrs el) as [c|]; csimpl; [|apply pushes_err].
  destruct (truthy (c "r")); [|apply pushes_none].
  destruct (addPathData layer xform _ false h) as [[geo layer1]|] eqn:Hp; csimpl;
    [|apply pushes_err].
  apply addPathData_pushes in Hp as ->.
  rewrite insert_pushed. apply pushes_one.
Qed.

Lemma addRectToLayer_labels el layer xform h :
  pushesLabelled el layer (addRectToLayer el layer xform h).
Proof.
  unfold addRectToLayer. destruct (attrs el) as [c|]; csimpl; [|apply pushes_err].
  apply pushes_one.
Qed.

Lemma addLineToLayer_labels el layer xform h :
  pushesLabelled el layer (addLineToLayer el layer xform h).
Proof.
  unfold addLineToLayer. destruct (attrs el) as [c|]; csimpl; [|apply pushes_err].
  apply pushes_one.
Qed.

Lemma addPolygonToLayer_labels el layer xform h :
  pushesLabelled el layer (addPolygonToLayer el layer xform h).
Proof.
  unfold addPolygonToLayer. destruct (attrs el) as [c|]; csimpl; [|apply pushes_err].
  destruct (truthy (c "points")); csimpl; [|apply pushes_none].
  destruct (c "points"); csimpl; [apply pushes_err|].
  destruct (push_first_copy _); csimpl; [|apply pushes_err].
  apply pushes_one.
Qed.

Lemma addPolylineToLayer_labels el layer xform h :
  pushesLabelled el layer (addPolylineToLayer el layer xform h).
Proof.
  unfold addPolylineToLayer. destruct (attrs el) as [c|]; csimpl; [|apply pushes_err].
  destruct (truthy (c "points")); csimpl; [|apply pushes_none].
  destruct (c "points"); csimpl; [apply pushes_err|].
  destruct (push_first_copy _); csimpl; [|apply pushes_err].
  apply pushes_one.
Qed.

Lemma leafResult_labels el layer h r layer' h' :
  pushesLabelled el layer r -> leafResult h r = Ok (layer', h') ->
  exists news, layer' = layer ++ news /\ (length news <= 1)%nat /\
               Forall (labelledFor el) news.
Proof.
  intros Hr. unfold leafResult. destruct r as [l|]; csimpl; [|done].
  intros [= <- <-]. by apply Hr.
Qed.

Lemma leaf_labels (el : element) (layer layer' : list Geometry)
    (xform : option loc) (h h' : heap) :
  el_name el <> "g" ->
  addElementToLayer el layer xform h = Ok (layer', h') ->
  exists news, layer' = layer ++ news /\ (length news <= 1)%nat /\
               Forall (labelledFor el) news.
Proof.
  destruct el as [name ns a children]. simpl el_name. intros Hg.
  rewrite addElementToLayer_dispatch. cbv zeta. rewrite dispatch_cases. unfold dispatch_decide.
  repeat case_decide; try done; intros Hr;
    first [ injection Hr as <- <-; exists []; rewrite app_nil_r;
            repeat split; [simpl; lia|constructor]
          | eapply leafResult_labels; [|exact Hr];
            first [ apply addPathToLayer_labels | apply addRectToLayer_labels
                  | apply addLineToLayer_labels | apply addCircleToLayer_labels
                  | apply addPolygonToLayer_labels | apply addPolylineToLayer_labels
                  | apply pushes_err ] ].
Qed.

(** X23: an element other than a group adds at most one geometry, and with an
    [id] attribute that geometry is labelled [#id], whatever its kind. *)
Theorem id_labels_geometry (el : element) (a : gmap string string) (v : string)
    (layer layer' : list Geometry) (xform : option loc) (h h' : heap) :
  el_name el <> "g" -> el_attrs el = Some a -> a !! "id" = Some v ->
  addElementToLayer el layer xform h = Ok (layer', h') ->
  exists news, layer' = layer ++ news /\ (length news <= 1)%nat /\
               Forall (fun g => debugId (coordinates g) = Some ("#" +:+ v)) news.
Proof.
  intros Hg Ha Hv Hr. destruct (leaf_labels el layer layer' xform h h' Hg Hr)
    as (news & -> & Hlen & Hall).
  exists news. repeat split; [done|]. eapply Forall_impl; [exact Hall|].
  intros g [fallback Hl]. rewrite Hl. unfold debugLabel. by rewrite Ha, Hv.
Qed.

Lemma labelledFor_labelled el g : labelledFor el g -> labelled g.
Proof. intros [fallback Hl]. unfold labelled. by rewrite Hl. Qed.

Lemma forEachM_labels (f : element -> list Geometry * list mat23 -> outcome (list Geometry * list mat23))
    (es : list element) :
  Forall (fun e => forall layer h layer' h', f e (layer, h) = Ok (layer', h') ->
                     Forall labelled layer -> Forall labelled layer') es ->
  forall layer h layer' h', forEachM f es (layer, h) = Ok (layer', h') ->
    Forall labelled layer -> Forall labelled layer'.
Proof.
  induction 1 as [|e es He _ IH]; intros layer h layer' h'; csimpl.
  - by intros [= <- <-].
  - destruct (f e (layer, h)) as [[l1 h1]|] eqn:Hf; csimpl; [|done].
    intros Hr Hl. eapply IH; [exact Hr|]. eapply He; [exact Hf|exact Hl].
Qed.

(** X24: every geometry that the walk adds to a layer carries a [debugId]: if
    all entries of the layer are labelled before [addElementToLayer], all are
    after it. *)
Theorem walk_labels_everything (el : element) (layer layer' : list Geometry)
    (xform : option loc) (h h' : heap) :
  addElementToLayer el layer xform h = Ok (layer', h') ->
  Forall labelled layer -> Forall labelled layer'.
Proof.
  revert layer layer' xform h h'.
  induction el as [name ns a|name ns a es IH] using element_induction;
    intros layer layer' xform h h' Hr Hl.
  - destruct (decide (name = "g")) as [->|Hg].
    + rewrite addElementToLayer_group in Hr by done. done.
    + destruct (leaf_labels (Element name ns a None) _ _ _ _ _ Hg Hr) as (news & -> & _ & Hall).
      apply Forall_app. split; [done|].
      eapply Forall_impl; [exact Hall|]. intros g. apply labelledFor_labelled.
  - destruct (decide (name = "g")) as [->|Hg].
    + rewrite addElementToLayer_group in Hr by done. unfold addGroupToLayer in Hr.
      simpl el_children in Hr.
      eapply (forEachM_labels (fun e st => addElementToLayer e st.1 _ st.2)); [|exact Hr|exact Hl].
      eapply Forall_impl; [exact IH|]. intros e He l0 h0 l1 h1. apply He.
    + destruct (leaf_labels (Element name ns a (Some es)) _ _ _ _ _ Hg Hr) as (news & -> & _ & Hall).
      apply Forall_app. split; [done|].
      eapply Forall_impl; [exact Hall|]. intros g. apply labelledFor_labelled.
Qed.

(** X25: a line whose [x1], [y1], [x2], [y2] are numbers (missing ones count
    as 0) becomes a LineString of the two points (x1,y1) (x2,y2), through
    [coords]. *)
Theorem line_segment (el : element) (layer : list Geometry) (xform : option loc) (h : heap)
    (c : string -> attrval) (x1 y1 x2 y2 : num) :
  attrs el = Ok c ->
  c "x1" = ANum x1 -> c "y1" = ANum y1 -> c "x2" = ANum x2 -> c "y2" = ANum y2 ->
  exists geo,
    addLineToLayer el layer xform h = Ok (layer ++ [geo]) /\
    type geo = LineString /\
    shape (coordinates geo) = CLine (coords [(x1, y1); (x2, y2)] xform h).
Proof.
  intros Hc Hx1 Hy1 Hx2 Hy2. unfold addLineToLayer. rewrite Hc. csimpl.
  rewrite Hx1, Hy1, Hx2, Hy2. eexists. split; [reflexivity|]. split; [done|].
  destruct xform; reflexivity.
Qed.

(** X26: without a transform, a line whose [x1] does not read as a number is
    still added, with the text as coordinate, and the conversion of its
    coordinates then throws a TypeError. *)
Theorem text_coordinate_throws (el : element) (a : gmap string string) (s : string)
    (layer : list Geometry) (h : heap) (opts : options) (m : Matrix) :
  el_attrs el = Some a -> a !! "x1" = Some s -> is_NaN (toNumber s) = true ->
  exists geo,
    addLineToLayer el layer None h = Ok (layer ++ [geo]) /\
    makeFeature opts m geo = Err TypeError.
Proof.
  intros Ha Hs Hnan. destruct (attrs_text el a "x1" s Ha Hs Hnan) as (c & Hc & Hx1).
  unfold addLineToLayer. rewrite Hc. csimpl. rewrite Hx1.
  eexists. split; [reflexivity|].
  unfold makeFeature, convertCoordinates. csimpl. reflexivity.
Qed.

End LabelFacts.

(** ** Rings with a coordinate that is not a number *)

Lemma nsub_NaN_l a : nsub NaN a = NaN.
Proof. apply Prim2SF_inj. unfold nsub. rewrite sub_spec. reflexivity. Qed.

Lemma fold_nadd_NaN (l : list num) : fold_left nadd l NaN = NaN.
Proof. induction l as [|x l IH]; csimpl; [done|]. by rewrite nadd_NaN_l. Qed.

Lemma fold_nadd_absorbs (l : list num) (a : num) : NaN ∈ l -> fold_left nadd l a = NaN.
Proof.
  revert a. induction l as [|x l IH]; intros a Hin; [by apply elem_of_nil in Hin|].
  csimpl. apply elem_of_cons in Hin as [<-|Hin].
  - rewrite nadd_NaN_r. apply fold_nadd_NaN.
  - by apply IH.
Qed.

Lemma winding_term_NaN (pts : list point) (i : nat) (p : point) :
  pts !! i = Some p -> p.1 = NaN \/ p.2 = NaN -> winding_term pts i = NaN.
Proof.
  intros Hi Hp. unfold winding_term. cbv zeta.
  rewrite (list_lookup_total_correct _ _ _ Hi).
  destruct Hp as [-> | ->].
  - by rewrite nsub_NaN_l, nmul_NaN_l.
  - by rewrite nadd_NaN_l, nmul_NaN_r.
Qed.

(** X27: a ring with a point one of whose coordinates is [NaN] fails the
    winding check for every index, and so does its reversal: the loop of
    [addPathData] reverses it at every pass. *)
Theorem nan_ring_fails_check (ring : list point) (p : point) (i : nat) :
  p ∈ ring -> p.1 = NaN \/ p.2 = NaN ->
  windingIsCorrect ring i = false /\ windingIsCorrect (reverse ring) i = false /\
  normalizeRing i (normalizeRing i ring) = ring.
Proof.
  intros Hin Hp.
  assert (Hsum : forall r : list point, p ∈ r -> winding_sum r = NaN).
  { intros r [k Hk]%list_elem_of_lookup. unfold winding_sum. rewrite fold_left_terms.
    apply fold_nadd_absorbs, list_elem_of_fmap. exists k. split.
    - symmetry. by eapply winding_term_NaN.
    - apply elem_of_seq. split; [lia|]. simpl. by eapply lookup_lt_Some. }
  assert (Hfail : forall r : list point, p ∈ r -> windingIsCorrect r i = false).
  { intros r Hr. unfold windingIsCorrect. rewrite (Hsum r Hr). by case_decide. }
  assert (Hrev : windingIsCorrect (reverse ring) i = false)
    by (apply Hfail; by apply elem_of_reverse).
  split; [by apply Hfail|]. split; [exact Hrev|].
  rewrite normalizeRing_twice, (Hfail ring Hin), Hrev. done.
Qed.

(** ** The further properties on examples *)

(** [labelledRect]: the square of side 100 at the origin. *)
Lemma rect_ring_witness :
  exists geo,
    addRectToLayer (H := exampleRuntime) labelledRect [] None [] = Ok ([] ++ [geo]) /\
    type geo = Polygon /\
    shape (coordinates geo) = CRings [rectRing (zn 0) (zn 0) (zn 100) (zn 100)].
Proof.
  eapply (rect_ring (H := exampleRuntime) labelledRect [] [] _ (zn 0) (zn 0) (zn 100) (zn 100));
    reflexivity.
Defined.

(** A circle flattened to [cwSquare] stays clockwise. *)
Lemma circle_not_normalised_witness :
  exists geo,
    addCircleToLayer (H := squareRuntime) smallCircle [] None [] = Ok ([] ++ [geo]) /\
    pathGeometry [ {| poly_points := cwSquare; closed := true |} ] None false [] geo.
Proof.
  eapply (circle_not_normalised (H := squareRuntime) smallCircle [] None [] _
            [ {| poly_points := cwSquare; closed := true |} ]).
  - reflexivity.
  - reflexivity.
  - reflexivity.
  - discriminate.
Defined.

(** An element with an [id] and nothing else. *)
Lemma missing_attribute_skips_witness :
  let el := node "path" [("id", "p")] [] in
  addPathToLayer (H := exampleRuntime) el [] None [] = Ok [] /\
  addCircleToLayer (H := exampleRuntime) el [] None [] = Ok [] /\
  addPolygonToLayer (H := exampleRuntime) el [] None [] = Ok [] /\
  addPolylineToLayer (H := exampleRuntime) el [] None [] = Ok [].
Proof.
  intros el.
  destruct (missing_attribute_skips (H := exampleRuntime) el (list_to_map [("id", "p")])
              [] None [] eq_refl) as (H1 & H2 & H3 & H4).
  split; [|split; [|split]]; [apply H1 | apply H2 | apply H3 | apply H4]; reflexivity.
Defined.

(** [<rect/>]. *)
Lemma bare_primitive_throws_witness :
  addElementToLayer (H := exampleRuntime) (node "rect" [] []) [] None [] = Err TypeError.
Proof.
  apply (bare_primitive_throws (H := exampleRuntime) (node "rect" [] []) [] None []).
  - reflexivity.
  - apply (bool_decide_unpack _). vm_compute. exact I.
Defined.

(** [<polygon points="7"/>]. *)
Lemma numeric_points_witness :
  let el := node "polygon" [("points", "7")] [] in
  addPolygonToLayer (H := exampleRuntime) el [] None [] = Err TypeError /\
  addPolylineToLayer (H := exampleRuntime) el [] None [] = Err TypeError.
Proof.
  intros el.
  apply (numeric_points (H := exampleRuntime) el (list_to_map [("points", "7")]) "7"
           [] None []); reflexivity.
Defined.

(** [<text x="1"/>]. *)
Lemma unhandled_element_ignored_witness :
  addElementToLayer (H := exampleRuntime) (node "text" [("x", "1")] []) [] None [] = Ok ([], []).
Proof.
  apply (unhandled_element_ignored (H := exampleRuntime) (node "text" [("x", "1")] []) [] None []).
  apply (bool_decide_unpack _). vm_compute. exact I.
Defined.

(** [ellipseGroup]. *)
Lemma ellipse_aborts_group_witness :
  addGroupToLayer (H := exampleRuntime) ellipseGroup [] None [] = Err (ProcessExit 2).
Proof.
  eapply (ellipse_aborts_group (H := exampleRuntime) ellipseGroup (node "ellipse" [("rx", "1")] [])
            [plainPolyline] [plainPolyline] [] None []).
  - reflexivity.
  - reflexivity.
  - vm_compute. reflexivity.
Defined.

(** Of [twoLayers] only the second is left, with its one Point. *)
Lemma collectLayers_order_witness :
  exists ls,
    collectLayers (H := exampleRuntime) {| layers := true; debug := false |}
                  (MkMatrix (zn 1) (zn 0) (zn 0) (zn 1) (zn 0) (zn 0)) twoLayers = Ok ls /\
    (fun kv => (kv.1, (fun f => type (geometry f)) <$> features kv.2)) <$> ls
    = [("dots", [Point])].
Proof.
  eexists. split; [vm_compute; reflexivity|].
  apply (collectLayers_order (H := exampleRuntime) {| layers := true; debug := false |}
           (MkMatrix (zn 1) (zn 0) (zn 0) (zn 1) (zn 0) (zn 0)) twoLayers).
  - repeat constructor.
  - vm_compute. reflexivity.
Defined.

(** [rectDoc] gives a collection with a feature. *)
Lemma convert_never_empty_witness :
  exists fc,
    convertSVGToGeoJSON (H := exampleRuntime) rectDoc {| layers := false; debug := false |}
    = Ok (Single fc) /\ features fc <> [].
Proof.
  eexists. split; [vm_compute; reflexivity|].
  refine (proj2 (convert_never_empty (H := exampleRuntime) rectDoc
                   {| layers := false; debug := false |} (Single _) _)).
  vm_compute. reflexivity.
Defined.

(** The text [0,0 10,5]. *)
Lemma parse_pointsText_witness :
  parse_pairs (H := exampleRuntime) (split_sep "0,0 10,5")
  = (fun p => (toNumber (Runtime := exampleRuntime) p.1, toNumber (Runtime := exampleRuntime) p.2))
      <$> [("0", "0"); ("10", "5")].
Proof.
  apply (parse_pointsText (H := exampleRuntime) [("0", "0"); ("10", "5")]).
  repeat first [apply Forall_cons; split | apply Forall_nil | split | done].
Defined.

(** The text [ 0,0 10,5] with its leading space. *)
Lemma leading_separator_shifts_witness :
  parse_pairs (H := exampleRuntime) (split_sep " 0,0 10,5")
  = parse_pairs (H := exampleRuntime) ["0"; "10"; "5"].
Proof.
  apply (leading_separator_shifts (H := exampleRuntime) " " [("0", "0"); ("10", "5")]).
  - reflexivity.
  - repeat first [apply Forall_cons; split | apply Forall_nil | split | done].
  - discriminate.
Defined.

(** [movedPolyline] allocates the translation by 5. *)
Lemma matrix_transform_parsed_witness :
  combineTransform (H := exampleRuntime) movedPolyline None []
  = (Some 0%nat, [] ++ [translation 5 0]).
Proof.
  apply (matrix_transform_parsed (H := exampleRuntime) movedPolyline
           (list_to_map [("points", "0,0 1,1"); ("transform", "matrix(1 0 0 1 5 0)")])
           " " "1" "0" "0" "1" "5" "0" []).
  - reflexivity.
  - reflexivity.
  - repeat first [apply Forall_cons; split | apply Forall_nil | split | done].
  - reflexivity.
  - reflexivity.
Defined.

(** [translate(5 0)] leaves the inherited translation by 10 alone. *)
Lemma transform_without_matrix_ignored_witness :
  combineTransform (H := exampleRuntime) (node "g" [("transform", "translate(5 0)")] [])
                   (Some 0%nat) [translation 10 0]
  = (Some 0%nat, [translation 10 0]).
Proof.
  apply (transform_without_matrix_ignored (H := exampleRuntime)
           (node "g" [("transform", "translate(5 0)")] [])
           (list_to_map [("transform", "translate(5 0)")]) "translate(5 0)").
  - reflexivity.
  - reflexivity.
  - intros Hex. apply occursIn_spec in Hex. vm_compute in Hex. discriminate.
Defined.

(** [matrix(1 0 0 1)]. *)
Lemma short_matrix_NaN_witness :
  let '(xform', h') :=
    combineTransform (H := exampleRuntime) (node "g" [("transform", "matrix(1 0 0 1)")] []) None []
  in Forall (fun p => p.2 = NaN) (coords [zp 3 4; zp 0 0] xform' h').
Proof.
  apply (short_matrix_NaN (H := exampleRuntime) (node "g" [("transform", "matrix(1 0 0 1)")] [])
           (list_to_map [("transform", "matrix(1 0 0 1)")]) "matrix(1 0 0 1)" "1 0 0 1"
           None [] [zp 3 4; zp 0 0]).
  - reflexivity.
  - reflexivity.
  - reflexivity.
  - vm_compute. lia.
  - exact I.
Defined.

(** In layer mode the group [Road_Map_1_] fills the layer [Road Map]. *)
Lemma topLevel_frame_witness :
  exists byName' h',
    topLevel (H := exampleRuntime) {| layers := true; debug := false |}
             (1%nat, node "g" [("id", "Road_Map_1_")] [plainPolyline]) ([("", [])], [])
    = Ok (byName', h') /\
    exists new, forall k,
      layerGet k byName'
      = if decide (k = "Road Map")
        then Some (default [] (layerGet k [("", [])]) ++ new)
        else layerGet k [("", [])].
Proof.
  eexists _, _. split; [vm_compute; reflexivity|].
  eapply (topLevel_frame (H := exampleRuntime) {| layers := true; debug := false |}
            1 (node "g" [("id", "Road_Map_1_")] [plainPolyline]) [("", [])] _ []).
  - apply (bool_decide_unpack _). vm_compute. exact I.
  - vm_compute. reflexivity.
Defined.

(** [labelledRect] is labelled [#r1]. *)
Lemma id_labels_geometry_witness :
  exists layer' h',
    addElementToLayer (H := exampleRuntime) labelledRect [] None [] = Ok (layer', h') /\
    exists news, layer' = [] ++ news /\ (length news <= 1)%nat /\
                 Forall (fun g => debugId (coordinates g) = Some ("#" +:+ "r1")) news.
Proof.
  eexists _, _. split; [vm_compute; reflexivity|].
  eapply (id_labels_geometry (H := exampleRuntime) labelledRect
            (list_to_map [("id", "r1"); ("x", "0"); ("y", "0"); ("width", "100"); ("height", "100")])
            "r1" [] _ None []).
  - discriminate.
  - reflexivity.
  - reflexivity.
  - vm_compute. reflexivity.
Defined.

(** The two polylines of [siblingsGroup]. *)
Lemma walk_labels_everything_witness :
  exists layer' h',
    addElementToLayer (H := exampleRuntime) siblingsGroup [] None [] = Ok (layer', h') /\
    length layer' = 2%nat /\ Forall labelled layer'.
Proof.
  eexists _, _. split; [vm_compute; reflexivity|]. split; [reflexivity|].
  eapply (walk_labels_everything (H := exampleRuntime) siblingsGroup [] _ None []).
  - vm_compute. reflexivity.
  - constructor.
Defined.

(** A line without [y2]. *)
Lemma line_segment_witness :
  exists geo,
    addLineToLayer (H := exampleRuntime) (node "line" [("x1", "1"); ("y1", "2"); ("x2", "3")] [])
                   [] None [] = Ok ([] ++ [geo]) /\
    type geo = LineString /\
    shape (coordinates geo) = CLine (coords [zp 1 2; zp 3 0] None []).
Proof.
  eapply (line_segment (H := exampleRuntime) (node "line" [("x1", "1"); ("y1", "2"); ("x2", "3")] [])
            [] None [] _ (zn 1) (zn 2) (zn 3) (zn 0)).
  - reflexivity.
  - apply (bool_decide_unpack _); vm_compute; exact I.
  - apply (bool_decide_unpack _); vm_compute; exact I.
  - apply (bool_decide_unpack _); vm_compute; exact I.
  - apply (bool_decide_unpack _); vm_compute; exact I.
Defined.

(** [<line x1="abc"/>]. *)
Lemma text_coordinate_throws_witness :
  exists geo,
    addLineToLayer (H := exampleRuntime) (node "line" [("x1", "abc")] []) [] None []
    = Ok ([] ++ [geo]) /\
    makeFeature (H := exampleRuntime) {| layers := false; debug := false |}
                (MkMatrix (zn 1) (zn 0) (zn 0) (zn 1) (zn 0) (zn 0)) geo = Err TypeError.
Proof.
  apply (text_coordinate_throws (H := exampleRuntime) (node "line" [("x1", "abc")] [])
           (list_to_map [("x1", "abc")]) "abc" [] []); reflexivity.
Defined.

(** A triangle with one [NaN]. *)
Lemma nan_ring_fails_check_witness :
  let ring := [zp 0 0; (zn 10, NaN); zp 10 10; zp 0 0] in
  windingIsCorrect ring 0 = false /\ windingIsCorrect (reverse ring) 0 = false /\
  normalizeRing 0 (normalizeRing 0 ring) = ring.
Proof.
  intros ring. apply (nan_ring_fails_check ring (zn 10, NaN) 0).
  - apply list_elem_of_lookup. by exists 1%nat.
  - by right.
Defined.
